(** * TTS & voice-cloning API: the synthesis and normalisation core

    A shallow embedding of [app/tts_synthesizer_real.py] and
    [app/audio_utils.py] (with the constants of [app/config.py]) and the
    proofs of the properties stated about them.

    Conventions of the embedding:
    - a Python [str] that is inspected character by character is a list of
      Unicode code points ([pystr]); identifiers and paths, which are only
      compared, built and searched, are Rocq strings;
    - samples are real numbers: the float arithmetic of NumPy is idealised,
      so rounding, infinities and NaN are outside the model;
    - every call that leaves the module (codecs, speech engines, the file
      system, the clock) is answered by an oracle of a [World] and recorded
      in a history, newest event first; an oracle sees the history so far,
      so an engine may fail once and succeed later;
    - exceptions are the subclasses of Python's [Exception]; the
      interpreter's own [BaseException] signals are not modelled;
    - log lines are not modelled. *)

From Stdlib Require Import ZArith List String Ascii Bool Lia QArith Reals Lra DecimalString.
From Stdlib Require DecimalNat.
From stdpp Require Import base option gmap strings.
Import ListNotations.

Local Open Scope Z_scope.

(** ** Python strings as code points *)

Definition codepoint := Z.
Definition pystr := list codepoint.

(** Reading a UTF-8 literal, so that examples can be written as text. *)
Fixpoint utf8_decode (bs : list Z) : pystr :=
  match bs with
  | [] => []
  | b0 :: r0 =>
      if b0 <? 128 then b0 :: utf8_decode r0
      else if b0 <? 224 then
        match r0 with
        | b1 :: r1 => Z.lor (Z.shiftl (Z.land b0 31) 6) (Z.land b1 63) :: utf8_decode r1
        | _ => []
        end
      else if b0 <? 240 then
        match r0 with
        | b1 :: b2 :: r2 =>
            Z.lor (Z.shiftl (Z.land b0 15) 12)
              (Z.lor (Z.shiftl (Z.land b1 63) 6) (Z.land b2 63)) :: utf8_decode r2
        | _ => []
        end
      else
        match r0 with
        | b1 :: b2 :: b3 :: r3 =>
            Z.lor (Z.shiftl (Z.land b0 7) 18)
              (Z.lor (Z.shiftl (Z.land b1 63) 12)
                 (Z.lor (Z.shiftl (Z.land b2 63) 6) (Z.land b3 63))) :: utf8_decode r3
        | _ => []
        end
  end.

Definition py (s : string) : pystr :=
  utf8_decode (map (fun a => Z.of_N (N_of_ascii a)) (list_ascii_of_string s)).

(** [str.isspace] of one character, which is also what [\s] matches in a
    [str] pattern and what [str.strip()] removes. *)
Definition is_space (c : codepoint) : bool :=
  ((9 <=? c) && (c <=? 13)) || ((28 <=? c) && (c <=? 32))
  || (c =? 133) || (c =? 160) || (c =? 5760)
  || ((8192 <=? c) && (c <=? 8202))
  || (c =? 8232) || (c =? 8233) || (c =? 8239) || (c =? 8287) || (c =? 12288).

(** [str.isalnum] below U+0100. *)
Definition latin1_isalnum (c : codepoint) : bool :=
  ((48 <=? c) && (c <=? 57)) || ((65 <=? c) && (c <=? 90)) || ((97 <=? c) && (c <=? 122))
  || (c =? 170) || (c =? 178) || (c =? 179) || (c =? 181) || (c =? 185) || (c =? 186)
  || ((188 <=? c) && (c <=? 190))
  || ((192 <=? c) && (c <=? 214)) || ((216 <=? c) && (c <=? 246))
  || ((248 <=? c) && (c <=? 255)).

Section Preprocess.

(** The Unicode database's alphanumeric test for the code points from
    U+0100 on: a table of the interpreter, taken as a parameter. *)
Variable unicode_isalnum : codepoint -> bool.

(** [\w] in a [str] pattern: alphanumeric or the underscore. *)
Definition is_word (c : codepoint) : bool :=
  (c =? 95) || (if c <? 256 then latin1_isalnum c else unicode_isalnum c).

(** The class [[^\w\s\.,!?;:-]] matches exactly the characters that
    [kept] rejects. *)
Definition kept (c : codepoint) : bool :=
  is_word c || is_space c
  || (c =? 46) || (c =? 44) || (c =? 33) || (c =? 63) || (c =? 59) || (c =? 58) || (c =? 45).

(** [re.sub(r'[^\w\s\.,!?;:-]', '', text)] *)
Definition sub_disallowed (text : pystr) : pystr := List.filter kept text.

Fixpoint lstrip (s : pystr) : pystr :=
  match s with
  | [] => []
  | c :: r => if is_space c then lstrip r else s
  end.

Fixpoint rstrip (s : pystr) : pystr :=
  match s with
  | [] => []
  | c :: r =>
      match rstrip r with
      | [] => if is_space c then [] else [c]
      | r' => c :: r'
      end
  end.

(** [text.strip()] *)
Definition strip (s : pystr) : pystr := rstrip (lstrip s).

(** [re.sub(r'\s+', ' ', s)]: a scan from the left in which [in_run]
    says that the previous character belonged to a run of whitespace,
    whose single replacement space was already emitted. *)
Fixpoint sub_spaces_from (in_run : bool) (s : pystr) : pystr :=
  match s with
  | [] => []
  | c :: r =>
      if is_space c
      then (if in_run then sub_spaces_from true r else 32 :: sub_spaces_from true r)
      else c :: sub_spaces_from false r
  end.

Definition sub_spaces (s : pystr) : pystr := sub_spaces_from false s.

(** [RealTTSSynthesizer.preprocess_text]; the method does not read
    [self]. *)
Definition preprocess_text (text : pystr) (language : string) : pystr :=
  let text := sub_disallowed text in
  let text := sub_spaces (strip text) in
  text.

(** *** The description of the method, word for word

    Remove what is not allowed, cut the rest at the runs of whitespace,
    and join the words by one space each. *)

Fixpoint fields (s : pystr) : list pystr :=
  match s with
  | [] => [[]]
  | c :: r =>
      if is_space c then [] :: fields r
      else match fields r with
           | f :: fs => (c :: f) :: fs
           | [] => [[c]]
           end
  end.

Definition nonempty (w : pystr) : bool :=
  match w with [] => false | _ => true end.

Definition words (s : pystr) : list pystr := List.filter nonempty (fields s).

Fixpoint join (ws : list pystr) : pystr :=
  match ws with
  | [] => []
  | w :: ws' => w ++ match ws' with [] => [] | _ => 32 :: join ws' end
  end.

Definition described_preprocess (text : pystr) : pystr :=
  join (words (List.filter kept text)).

(** Auxiliary notions for the proofs. *)
Definition all_space (s : pystr) : bool := forallb is_space s.
Definition no_space (s : pystr) : bool := forallb (fun c => negb (is_space c)) s.

Definition proper_word (w : pystr) : Prop :=
  nonempty w = true /\ no_space w = true.

(** What the scan emits on a right-stripped string when it starts inside
    a word: the rest of that word, then the other words, each after one
    space. *)
Definition after_word (s : pystr) : pystr :=
  match fields s with
  | [] => []
  | f :: fs =>
      f ++ match List.filter nonempty fs with [] => [] | ws => 32 :: join ws end
  end.

End Preprocess.

(** ** Exceptions, results and the monad of effects *)

Inductive exn :=
| ValueError (msg : string)
| KeyError (key : string)
| AttributeError (msg : string)
| ZeroDivisionError
| Exception (msg : string)
| ExternalError (origin : string) (msg : string).

Inductive result (A : Type) :=
| Ok (a : A)
| Raised (e : exn).
Arguments Ok {A} a.
Arguments Raised {A} e.

(** NumPy arrays as the code meets them: one axis, or channels by frames. *)
Inductive ndarray :=
| Arr1 (y : list R)
| Arr2 (rows : list (list R)).

Inductive source :=
| SrcPath (p : string)
| SrcBuffer (b : list Byte.byte).

Inductive propval :=
| PInt (z : Z)
| PFloat (q : Q)
| PStr (s : string).

(** The calls that leave the program. *)
Inductive event :=
| EvSoundFile (p : string)
| EvLoad (src : source) (mono : bool)
| EvResample (y : ndarray) (orig_sr target_sr : Z)
| EvMkdir (p : string)
| EvSfWrite (p : string) (y : ndarray) (sr : Z)
| EvPathExists (p : string)
| EvInit
| EvSetProperty (name : string) (v : propval)
| EvGetVoices
| EvSaveToFile (text : pystr) (p : string)
| EvRunAndWait
| EvRemove (p : string)
| EvGTTS (text : pystr) (lang : string)
| EvWriteToFp
| EvTime
| EvUuid4
| EvMakedirs (p : string).

Definition history := list event.

Definition M (St A : Type) : Type := St -> result A * St.

Definition ret {St A} (a : A) : M St A := fun s => (Ok a, s).

Definition raise {St A} (e : exn) : M St A := fun s => (Raised e, s).

Definition bind {St A B} (m : M St A) (k : A -> M St B) : M St B :=
  fun s =>
    match m s with
    | (Ok a, s') => k a s'
    | (Raised e, s') => (Raised e, s')
    end.

(** [try: body except Exception as e: handler e]. What the body did to the
    state before it raised stays done. *)
Definition try_except {St A} (body : M St A) (handler : exn -> M St A) : M St A :=
  fun s =>
    match body s with
    | (Ok a, s') => (Ok a, s')
    | (Raised e, s') => handler e s'
    end.

Declare Scope py_scope.
Delimit Scope py_scope with py.
Notation "x <- m ;; k" := (bind m (fun x => k))
  (at level 100, m at next level, right associativity) : py_scope.
Notation "m ;;; k" := (bind m (fun _ => k))
  (at level 100, right associativity) : py_scope.

(** A state that carries the history of external calls. *)
Class Traced (St : Type) := {
  past : St -> history;
  record : event -> St -> St
}.

#[export] Instance history_traced : Traced history :=
  {| past := fun h => h; record := fun ev h => ev :: h |}.

(** An external call: the oracle answers from the history so far, and the
    call is recorded whether it succeeds or raises. *)
Definition call {St A} `{Traced St} (ev : event) (oracle : history -> result A) : M St A :=
  fun s => (oracle (past s), record ev s).

(** ** Paths ([pathlib], POSIX flavour, on the text of a normalised path) *)

Fixpoint rfind (c : ascii) (s : string) (i : nat) : option nat :=
  match s with
  | EmptyString => None
  | String a r =>
      match rfind c r (S i) with
      | Some j => Some j
      | None => if Ascii.eqb a c then Some i else None
      end
  end.

(** [Path.name]: the final component. *)
Definition path_name (p : string) : string :=
  match rfind "/"%char p 0 with
  | Some i => substring (S i) (String.length p - S i) p
  | None => p
  end.

(** [Path.suffix]: from the last dot of the name on, unless that dot is
    the first or the last character of the name. *)
Definition suffix (p : string) : string :=
  let name := path_name p in
  match rfind "."%char name 0 with
  | Some i =>
      if (0 <? i)%nat && (i <? String.length name - 1)%nat
      then substring i (String.length name - i) name
      else ""%string
  | None => ""%string
  end.

(** [Path.parent], as text. *)
Definition parent (p : string) : string :=
  match rfind "/"%char p 0 with
  | Some O => "/"%string
  | Some i => substring 0 i p
  | None => "."%string
  end.

Definition lower_ascii (a : ascii) : ascii :=
  let n := nat_of_ascii a in
  if (65 <=? n)%nat && (n <=? 90)%nat then ascii_of_nat (n + 32) else a.

(** [str.lower()]; beyond ASCII only the Kelvin sign lowers to an ASCII
    letter, and no supported extension contains a [k]. *)
Fixpoint lower (s : string) : string :=
  match s with
  | EmptyString => EmptyString
  | String a r => String (lower_ascii a) (lower r)
  end.

Definition str_in (x : string) (l : list string) : bool :=
  existsb (String.eqb x) l.

Arguments str_in : simpl never.
Arguments suffix : simpl never.
Arguments lower : simpl never.
Arguments parent : simpl never.

(** ** Configuration ([app/config.py]) *)

Record Config := {
  AUDIO_SAMPLE_RATE : Z;
  MAX_AUDIO_DURATION : Z;
  MIN_AUDIO_DURATION : Z;
  OUTPUT_DIR : string
}.

(** The values taken when the environment sets none. *)
Definition default_config : Config :=
  {| AUDIO_SAMPLE_RATE := 16000;
     MAX_AUDIO_DURATION := 300;
     MIN_AUDIO_DURATION := 30;
     OUTPUT_DIR := "outputs" |}.

Definition SUPPORTED_INPUT_FORMATS : list string :=
  [".wav"; ".mp3"; ".flac"]%string.

(** ** The world outside *)

Record SystemVoice := {
  sv_id : string;
  sv_name : option string    (* [hasattr(voice, 'name')] *)
}.

Record World := {
  AUDIO_LIBS_AVAILABLE : bool;
  config : Config;
  (* file system: [os.path.exists], which answers [False] where the
     system call fails, and [Path.exists()], which raises what is not a
     plain absence ([OSError] for a name too long, [PermissionError]) *)
  path_exists : history -> string -> bool;
  pathlib_exists : history -> string -> result bool;
  mkdir : history -> string -> result unit;
  os_makedirs : history -> string -> result unit;
  os_remove : history -> string -> result unit;
  os_path_dirname : string -> string;
  path_join : string -> string -> string;
  (* codecs *)
  sf_SoundFile : history -> string -> result (Z * Z);
  librosa_load : history -> source -> bool -> result (ndarray * Z);
  librosa_resample : list R -> Z -> Z -> result (list R);
  sf_write : history -> string -> ndarray -> Z -> result unit;
  (* the offline engine *)
  pyttsx3_init : history -> result unit;
  setProperty : history -> string -> propval -> result unit;
  getProperty_voices : history -> result (option (list SystemVoice));
  save_to_file : history -> pystr -> string -> result unit;
  runAndWait : history -> result unit;
  (* the network engine *)
  gTTS : history -> pystr -> string -> result unit;
  write_to_fp : history -> result (list Byte.byte);
  (* clock and randomness *)
  time_time : history -> Z;
  uuid4 : history -> string
}.

(** ** NumPy and librosa primitives on real samples *)

Definition ndim (y : ndarray) : Z :=
  match y with Arr1 _ => 1 | Arr2 _ => 2 end.

(** All elements, row by row. *)
Definition elements (y : ndarray) : list R :=
  match y with Arr1 l => l | Arr2 rows => concat rows end.

Definition array_map (f : R -> R) (y : ndarray) : ndarray :=
  match y with
  | Arr1 l => Arr1 (map f l)
  | Arr2 rows => Arr2 (map (map f) rows)
  end.

Definition Rsum (l : list R) : R := fold_right Rplus 0%R l.

(** [np.mean(y**2)] *)
Definition mean_square (y : ndarray) : R :=
  (Rsum (map (fun x => x * x) (elements y)) / INR (length (elements y)))%R.

Fixpoint add_rows (a b : list R) : list R :=
  match a, b with
  | x :: a', z :: b' => (x + z)%R :: add_rows a' b'
  | _, _ => []
  end.

Fixpoint column_sums (rows : list (list R)) : list R :=
  match rows with
  | [] => []
  | [r] => r
  | r :: rs => add_rows r (column_sums rs)
  end.

(** [librosa.to_mono]: the mean over the channel axis. *)
Definition to_mono (y : ndarray) : ndarray :=
  match y with
  | Arr1 l => Arr1 l
  | Arr2 rows => Arr1 (map (fun x => (x / INR (length rows))%R) (column_sums rows))
  end.

(** [np.stack([y] * n)] of a one-axis array. *)
Definition stack_copies (y : ndarray) (n : Z) : ndarray :=
  match y with
  | Arr1 l => Arr2 (repeat l (Z.to_nat n))
  | Arr2 rows => Arr2 rows
  end.

(** [np.clip(y, lo, hi)] *)
Definition clip1 (lo hi x : R) : R := Rmin (Rmax x lo) hi.
Definition np_clip (y : ndarray) (lo hi : R) : ndarray := array_map (clip1 lo hi) y.


(** ** [app/audio_utils.py] *)

Definition Qltb (a b : Q) : bool := negb (Qle_bool b a).

Fixpoint map_result {A B} (f : A -> result B) (l : list A) : result (list B) :=
  match l with
  | [] => Ok []
  | x :: r =>
      match f x with
      | Raised e => Raised e
      | Ok z => match map_result f r with
                | Raised e => Raised e
                | Ok zs => Ok (z :: zs)
                end
      end
  end.

Section AudioUtils.

Variable w : World.
Local Open Scope py_scope.

(** [librosa.resample] works along the last axis, channel by channel. *)
Definition resample_array (y : ndarray) (orig_sr target_sr : Z) : result ndarray :=
  match y with
  | Arr1 l =>
      match librosa_resample w l orig_sr target_sr with
      | Ok l' => Ok (Arr1 l')
      | Raised e => Raised e
      end
  | Arr2 rows =>
      match map_result (fun l => librosa_resample w l orig_sr target_sr) rows with
      | Ok rows' => Ok (Arr2 rows')
      | Raised e => Raised e
      end
  end.

(** Lines 50-62 of [validate_audio_format]: the body of the [try]. *)
Definition check_duration (file_path : string) : M history bool :=
  audio <- call (EvSoundFile file_path) (fun h => sf_SoundFile w h file_path) ;;
  let frames := fst audio in
  let samplerate := snd audio in
  if samplerate =? 0 then raise ZeroDivisionError
  else
    let duration := (inject_Z frames / inject_Z samplerate)%Q in
    if Qltb duration (inject_Z (MIN_AUDIO_DURATION (config w))) then ret false
    else if Qltb (inject_Z (MAX_AUDIO_DURATION (config w))) duration then ret false
    else ret true.

(** Lines 27-66. The existence check of line 37 is before the [try]:
    what [file_path.exists()] raises leaves the function. *)
Definition validate_audio_format (file_path : string) : M history bool :=
  present <- call (EvPathExists file_path) (fun h => pathlib_exists w h file_path) ;;
  if negb present then ret false
  else if negb (str_in (lower (suffix file_path)) SUPPORTED_INPUT_FORMATS) then ret false
  else if negb (AUDIO_LIBS_AVAILABLE w) then ret true
  else try_except (check_duration file_path) (fun _ => ret false).

(** Lines 173-179 of [normalize_audio]. *)
Definition target_rms : R := (7 / 10)%R.

Definition current_rms (y : ndarray) : R := sqrt (mean_square y).

Definition scaling_factor (rms : R) : R := Rmin (target_rms / rms) 3.

Definition volume_normalized (y : ndarray) : ndarray :=
  if Rlt_dec 0 (current_rms y)
  then array_map (fun x => (x * scaling_factor (current_rms y))%R) y
  else y.

(** Lines 159-163: the channel conversion. *)
Definition convert_channels (y : ndarray) (target_channels : Z) : ndarray :=
  if (target_channels =? 1) && (1 <? ndim y) then to_mono y
  else if (1 <? target_channels) && (ndim y =? 1) then stack_copies y target_channels
  else y.

(** Lines 153-191: the body of the [try]. *)
Definition normalize_steps (input_path output_path : string) (target_sr : Z)
    (target_channels : Z) (normalize_volume : bool) : M history bool :=
  loaded <- call (EvLoad (SrcPath input_path) false)
                 (fun h => librosa_load w h (SrcPath input_path) false) ;;
  let y := fst loaded in
  let sr := snd loaded in
  let y := convert_channels y target_channels in
  resampled <- (if negb (sr =? target_sr)
                then y' <- call (EvResample y sr target_sr)
                                (fun _ => resample_array y sr target_sr) ;;
                     ret (y', target_sr)
                else ret (y, sr)) ;;
  let y := fst resampled in
  let sr := snd resampled in
  let y := if normalize_volume then volume_normalized y else y in
  let y := np_clip y (-1) 1 in
  call (EvMkdir (parent output_path)) (fun h => mkdir w h (parent output_path)) ;;;
  call (EvSfWrite output_path y sr) (fun h => sf_write w h output_path y sr) ;;;
  ret true.

(** Lines 149-150: [target_sr] defaults to the configured rate. *)
Definition effective_sr (target_sr : option Z) : Z :=
  match target_sr with
  | None => AUDIO_SAMPLE_RATE (config w)
  | Some sr => sr
  end.

Definition normalize_audio (input_path output_path : string) (target_sr : option Z)
    (target_channels : Z) (normalize_volume : bool) : M history bool :=
  if negb (AUDIO_LIBS_AVAILABLE w) then ret false
  else
    let target_sr := effective_sr target_sr in
    try_except
      (normalize_steps input_path output_path target_sr target_channels normalize_volume)
      (fun _ => ret false).

End AudioUtils.


(** ** [app/tts_synthesizer_real.py] *)

(** A voice description: the dictionaries of the registry, and the one
    built for the fallback, which has only ["engine"] and ["lang"]. *)
Record VoiceInfo := {
  vid : option string;
  vname : option string;
  engine : string;
  lang : string;
  system_voice : option SystemVoice
}.

Record RealTTSSynthesizer := {
  pyttsx3_engine : option unit;
  available_voices : gmap string VoiceInfo;
  current_voice : string
}.

Definition set_pyttsx3_engine (e : option unit) (s : RealTTSSynthesizer) :=
  {| pyttsx3_engine := e;
     available_voices := available_voices s;
     current_voice := current_voice s |}.

Definition set_available_voices (v : gmap string VoiceInfo) (s : RealTTSSynthesizer) :=
  {| pyttsx3_engine := pyttsx3_engine s;
     available_voices := v;
     current_voice := current_voice s |}.

Definition set_current_voice (v : string) (s : RealTTSSynthesizer) :=
  {| pyttsx3_engine := pyttsx3_engine s;
     available_voices := available_voices s;
     current_voice := v |}.

(** The object and the history of the process. *)
Record Runtime := {
  self : RealTTSSynthesizer;
  trace : history
}.

#[export] Instance runtime_traced : Traced Runtime :=
  {| past := trace;
     record := fun ev rt => {| self := self rt; trace := ev :: trace rt |} |}.

Definition get_self : M Runtime RealTTSSynthesizer :=
  fun rt => (Ok (self rt), rt).

Definition update_self (f : RealTTSSynthesizer -> RealTTSSynthesizer) : M Runtime unit :=
  fun rt => (Ok tt, {| self := f (self rt); trace := trace rt |}).

Definition string_of_nat (n : nat) : string := NilZero.string_of_uint (Nat.to_uint n).
Definition string_of_Z (z : Z) : string := NilZero.string_of_int (Z.to_int z).

(** [s.replace(old, new)] for a non-empty [old]; [skip] counts the
    characters of a match still to pass over. *)
Fixpoint replace_from (old new : string) (skip : nat) (s : string) : string :=
  match s with
  | EmptyString => EmptyString
  | String a r =>
      match skip with
      | S k => replace_from old new k r
      | O =>
          if String.prefix old s
          then String.append new (replace_from old new (String.length old - 1) r)
          else String a (replace_from old new 0 r)
      end
  end.

Definition str_replace (old new s : string) : string := replace_from old new 0 s.

(** [x or y] on an optional string: [None] and the empty string are false. *)
Definition or_else (x : option string) (y : string) : string :=
  match x with
  | Some v => if String.eqb v "" then y else v
  | None => y
  end.

Definition truthy (x : option string) : option string :=
  match x with
  | Some v => if String.eqb v "" then None else Some v
  | None => None
  end.

Definition default_voice : VoiceInfo :=
  {| vid := Some "default"; vname := Some "Voz Padrão";
     engine := "pyttsx3"; lang := "pt-BR"; system_voice := None |}.

Definition gtts_pt_voice : VoiceInfo :=
  {| vid := Some "gtts_pt"; vname := Some "Google TTS Português";
     engine := "gtts"; lang := "pt"; system_voice := None |}.

Definition gtts_en_voice : VoiceInfo :=
  {| vid := Some "gtts_en"; vname := Some "Google TTS English";
     engine := "gtts"; lang := "en"; system_voice := None |}.

(** Lines 47-51. *)
Definition builtin_voices : gmap string VoiceInfo :=
  <["gtts_en" := gtts_en_voice]> (<["gtts_pt" := gtts_pt_voice]> (<["default" := default_voice]> ∅)).

(** Lines 68-70. *)
Definition network_only_voices : gmap string VoiceInfo :=
  <["gtts_pt" := gtts_pt_voice]> ∅.

(** Lines 55-62: the entry of the [i]-th system voice. *)
Definition system_voice_id (i : nat) : string := String.append "system_" (string_of_nat i).

Definition system_voice_entry (i : nat) (voice : SystemVoice) : VoiceInfo :=
  {| vid := Some (system_voice_id i);
     vname := Some (match sv_name voice with
                    | Some n => n
                    | None => String.append "Voz Sistema " (string_of_nat i)
                    end);
     engine := "pyttsx3";
     lang := "pt-BR";
     system_voice := Some voice |}.

(** Lines 54-62: the loop over [enumerate(voices or [])], from index [i]. *)
Fixpoint add_system_voices (i : nat) (voices : list SystemVoice)
    (registry : gmap string VoiceInfo) : gmap string VoiceInfo :=
  match voices with
  | [] => registry
  | voice :: rest =>
      add_system_voices (S i) rest (<[system_voice_id i := system_voice_entry i voice]> registry)
  end.

(** The dictionary built at line 210. *)
Definition gtts_voice : VoiceInfo :=
  {| vid := None; vname := None; engine := "gtts"; lang := "pt"; system_voice := None |}.

(** Lines 115-117: the identifier the request is served with. *)
Definition voice_to_use (s : RealTTSSynthesizer) (voice_id : option string) : string :=
  let chosen := or_else voice_id (current_voice s) in
  match available_voices s !! chosen with
  | Some _ => chosen
  | None => "gtts_pt"%string
  end.

Definition is_gtts_call (ev : event) : bool :=
  match ev with EvGTTS _ _ => true | _ => false end.

Definition is_engine_call (ev : event) : bool :=
  match ev with
  | EvInit | EvSetProperty _ _ | EvGetVoices | EvSaveToFile _ _ | EvRunAndWait => true
  | _ => false
  end.

Section Synthesizer.

Variable w : World.
Local Open Scope py_scope.

(** A method call on [self.pyttsx3_engine], which is [None] until
    [pyttsx3.init()] has returned. *)
Definition engine_call {A} (ev : event) (oracle : history -> result A) : M Runtime A :=
  s <- get_self ;;
  match pyttsx3_engine s with
  | Some _ => call ev oracle
  | None => raise (AttributeError "'NoneType' object has no attribute")
  end.

Definition set_engine_voice (voice : SystemVoice) : M Runtime unit :=
  engine_call (EvSetProperty "voice" (PStr (sv_id voice)))
    (fun h => setProperty w h "voice" (PStr (sv_id voice))).

(** Lines 38-64: the body of the [try] of [_initialize_engines]. *)
Definition start_engines : M Runtime unit :=
  call EvInit (pyttsx3_init w) ;;;
  update_self (set_pyttsx3_engine (Some tt)) ;;;
  engine_call (EvSetProperty "rate" (PInt 150)) (fun h => setProperty w h "rate" (PInt 150)) ;;;
  engine_call (EvSetProperty "volume" (PFloat (9 # 10)))
    (fun h => setProperty w h "volume" (PFloat (9 # 10))) ;;;
  voices <- engine_call EvGetVoices (getProperty_voices w) ;;
  update_self (set_available_voices builtin_voices) ;;;
  update_self (fun s =>
    set_available_voices
      (add_system_voices 0 (match voices with Some l => l | None => [] end)
         (available_voices s)) s).

Definition _initialize_engines : M Runtime unit :=
  try_except start_engines
    (fun _ => update_self (set_available_voices network_only_voices)).

(** [RealTTSSynthesizer()] in a process with history [h]: the object after
    [__init__], and whether [__init__] raised. *)
Definition new_synthesizer (h : history) : result unit * Runtime :=
  _initialize_engines
    {| self := {| pyttsx3_engine := None; available_voices := ∅; current_voice := "default" |};
       trace := h |}.

Definition set_voice (voice_id : string) : M Runtime bool :=
  s <- get_self ;;
  match available_voices s !! voice_id with
  | Some voice_info =>
      update_self (set_current_voice voice_id) ;;;
      (match system_voice voice_info with
       | Some voice =>
           if String.eqb (engine voice_info) "pyttsx3"
           then try_except (set_engine_voice voice) (fun _ => ret tt)
           else ret tt
       | None => ret tt
       end) ;;;
      ret true
  | None => ret false
  end.

(** Lines 153-160, shared by both engines: decode, resample, write. *)
Definition load_resample_write (src : source) (output_path : string) (sample_rate : Z)
  : M Runtime unit :=
  loaded <- call (EvLoad src true) (fun h => librosa_load w h src true) ;;
  let audio_data := fst loaded in
  let original_sr := snd loaded in
  audio_data <- (if negb (original_sr =? sample_rate)
                 then call (EvResample audio_data original_sr sample_rate)
                        (fun _ => resample_array w audio_data original_sr sample_rate)
                 else ret audio_data) ;;
  call (EvSfWrite output_path audio_data sample_rate)
    (fun h => sf_write w h output_path audio_data sample_rate).

Definition _synthesize_gtts (text : pystr) (voice_info : VoiceInfo) (output_path : string)
    (sample_rate : Z) : M Runtime string :=
  try_except
    (call (EvGTTS text (lang voice_info)) (fun h => gTTS w h text (lang voice_info)) ;;;
     temp_buffer <- call EvWriteToFp (write_to_fp w) ;;
     load_resample_write (SrcBuffer temp_buffer) output_path sample_rate ;;;
     ret output_path)
    (fun e => raise e).

(** Lines 172-204: the body of the [try] of [_synthesize_pyttsx3]. *)
Definition offline_attempt (text : pystr) (voice_info : VoiceInfo) (output_path : string)
    (sample_rate : Z) : M Runtime string :=
  (match system_voice voice_info with
   | Some voice => set_engine_voice voice
   | None => ret tt
   end) ;;;
  let temp_path := str_replace ".wav" "_temp.wav" output_path in
  engine_call (EvSaveToFile text temp_path) (fun h => save_to_file w h text temp_path) ;;;
  engine_call EvRunAndWait (runAndWait w) ;;;
  present <- call (EvPathExists temp_path) (fun h => Ok (path_exists w h temp_path)) ;;
  if negb present then raise (Exception "pyttsx3 não conseguiu gerar o arquivo")
  else
    load_resample_write (SrcPath temp_path) output_path sample_rate ;;;
    try_except (call (EvRemove temp_path) (fun h => os_remove w h temp_path))
      (fun _ => ret tt) ;;;
    ret output_path.

Definition _synthesize_pyttsx3 (text : pystr) (voice_info : VoiceInfo) (output_path : string)
    (sample_rate : Z) : M Runtime string :=
  try_except (offline_attempt text voice_info output_path sample_rate)
    (fun _ => _synthesize_gtts text gtts_voice output_path sample_rate).

(** Lines 122-126: the generated output path. *)
Definition fresh_output_path : M Runtime string :=
  timestamp <- call EvTime (fun h => Ok (time_time w h)) ;;
  random_id <- call EvUuid4 (fun h => Ok (uuid4 w h)) ;;
  let filename :=
    String.append "tts_"
      (String.append (string_of_Z timestamp)
         (String.append "_" (String.append (substring 0 8 random_id) ".wav"))) in
  ret (path_join w (OUTPUT_DIR (config w)) filename).

(** Lines 131-139: the dispatch on the engine kind. *)
Definition dispatch (text : pystr) (voice_info : VoiceInfo) (output_path : string)
    (sample_rate : Z) : M Runtime string :=
  try_except
    (if String.eqb (engine voice_info) "gtts"
     then _synthesize_gtts text voice_info output_path sample_rate
     else _synthesize_pyttsx3 text voice_info output_path sample_rate)
    (fun e => raise e).

Definition synthesize_text (text : pystr) (voice_id : option string)
    (output_path : option string) (sample_rate : Z) : M Runtime string :=
  match strip text with
  | [] => raise (ValueError "Texto não pode estar vazio")
  | _ :: _ =>
      s <- get_self ;;
      let voice_to_use := voice_to_use s voice_id in
      match available_voices s !! voice_to_use with
      | None => raise (KeyError voice_to_use)
      | Some voice_info =>
          output_path <- (match truthy output_path with
                          | Some p => ret p
                          | None => fresh_output_path
                          end) ;;
          call (EvMakedirs (os_path_dirname w output_path))
            (fun h => os_makedirs w h (os_path_dirname w output_path)) ;;;
          dispatch text voice_info output_path sample_rate
      end
  end.

End Synthesizer.

(** ** Sample worlds

    Worlds whose oracles answer the same way whatever happened before;
    they serve as concrete inputs. [init_ok], [speech_ok] and [network_ok]
    say whether [pyttsx3.init()], the offline engine's [save_to_file] and
    the [gTTS] constructor succeed. *)
Definition steady_world (libs : bool) (sound : result (Z * Z)) (loaded : result (ndarray * Z))
    (init_ok speech_ok network_ok : bool) (voices : option (list SystemVoice)) : World :=
  {| AUDIO_LIBS_AVAILABLE := libs;
     config := default_config;
     path_exists := fun _ _ => true;
     pathlib_exists := fun _ _ => Ok true;
     mkdir := fun _ _ => Ok tt;
     os_makedirs := fun _ _ => Ok tt;
     os_remove := fun _ _ => Ok tt;
     os_path_dirname := parent;
     path_join := fun a b => String.append a (String.append "/" b);
     sf_SoundFile := fun _ _ => sound;
     librosa_load := fun _ _ _ => loaded;
     librosa_resample := fun l _ _ => Ok l;
     sf_write := fun _ _ _ _ => Ok tt;
     pyttsx3_init := fun _ =>
       if init_ok then Ok tt else Raised (ExternalError "pyttsx3" "no driver");
     setProperty := fun _ _ _ => Ok tt;
     getProperty_voices := fun _ => Ok voices;
     save_to_file := fun _ _ _ =>
       if speech_ok then Ok tt else Raised (ExternalError "pyttsx3" "engine failure");
     runAndWait := fun _ => Ok tt;
     gTTS := fun _ _ _ =>
       if network_ok then Ok tt else Raised (ExternalError "gtts" "connection failed");
     write_to_fp := fun _ => Ok [];
     time_time := fun _ => 1700000000;
     uuid4 := fun _ => "0f8fad5b-d9cb-469f-a165-70867728950e"%string |}.

(** A file of [seconds] seconds at 16 kHz, in a world with the codecs. *)
Definition world_with_file (seconds : Z) : World :=
  steady_world true (Ok (seconds * 16000, 16000)) (Ok (Arr1 [], 16000)) true true true None.

(** A world whose decoder returns the samples [y] at the configured rate. *)
Definition world_with_samples (libs : bool) (y : ndarray) : World :=
  steady_world libs (Ok (0, 16000)) (Ok (y, 16000)) true true true None.

(** The same world with another answer to [setProperty]. *)
Definition with_setProperty (f : history -> string -> propval -> result unit) (w : World)
  : World :=
  {| AUDIO_LIBS_AVAILABLE := AUDIO_LIBS_AVAILABLE w;
     config := config w;
     path_exists := path_exists w;
     pathlib_exists := pathlib_exists w;
     mkdir := mkdir w;
     os_makedirs := os_makedirs w;
     os_remove := os_remove w;
     os_path_dirname := os_path_dirname w;
     path_join := path_join w;
     sf_SoundFile := sf_SoundFile w;
     librosa_load := librosa_load w;
     librosa_resample := librosa_resample w;
     sf_write := sf_write w;
     pyttsx3_init := pyttsx3_init w;
     setProperty := f;
     getProperty_voices := getProperty_voices w;
     save_to_file := save_to_file w;
     runAndWait := runAndWait w;
     gTTS := gTTS w;
     write_to_fp := write_to_fp w;
     time_time := time_time w;
     uuid4 := uuid4 w |}.

(** A world for synthesis: the engines start, one system voice exists. *)
Definition studio_world (speech_ok network_ok : bool) : World :=
  steady_world true (Ok (0, 16000)) (Ok (Arr1 [], 22050)) true speech_ok network_ok
    (Some [{| sv_id := "voices/maria"; sv_name := Some "Maria" |}]).

(** The object [RealTTSSynthesizer()] builds in that world, then with
    another current voice. *)
Definition studio_runtime (speech_ok network_ok : bool) : Runtime :=
  snd (new_synthesizer (studio_world speech_ok network_ok) []).

Definition with_current_voice (v : string) (rt : Runtime) : Runtime :=
  {| self := set_current_voice v (self rt); trace := trace rt |}.

(** Counting calls in a history. *)
Definition gtts_calls (h : history) : nat := length (List.filter is_gtts_call h).
Definition engine_calls (h : history) : nat := length (List.filter is_engine_call h).

(** ** The resolution order as the description states it

    The explicit identifier if the registry has it, else the current
    voice if the registry has it, else ["gtts_pt"]. *)
Definition described_voice_to_use (s : RealTTSSynthesizer) (voice_id : option string)
  : string :=
  let registered v :=
    match available_voices s !! v with Some _ => true | None => false end in
  match voice_id with
  | Some v =>
      if registered v then v
      else if registered (current_voice s) then current_voice s
      else "gtts_pt"%string
  | None =>
      if registered (current_voice s) then current_voice s else "gtts_pt"%string
  end.

(** The runtime in which [synthesize_text] reaches its dispatch (line
    131) with the output path [output_path]: the directory was ensured. *)
Definition at_dispatch (w : World) (output_path : string) (rt : Runtime) : Runtime :=
  record (EvMakedirs (os_path_dirname w output_path)) rt.

(** A computation keeps the observation [f] of the runtime. *)
Definition keeps {X A} (f : Runtime -> X) (m : M Runtime A) : Prop :=
  forall rt, f (snd (m rt)) = f rt.

Definition gtts_count (rt : Runtime) : nat := gtts_calls (trace rt).
Definition engine_count (rt : Runtime) : nat := engine_calls (trace rt).

(** The studio object after [set_voice("gtts_en")]. *)
Definition english_runtime : Runtime :=
  with_current_voice "gtts_en" (studio_runtime true true).

(** ** The rest of [app/audio_utils.py] *)

(** [Path.stem]: the name without its suffix. *)
Definition stem (p : string) : string :=
  let name := path_name p in
  match rfind "."%char name 0 with
  | Some i =>
      if (0 <? i)%nat && (i <? String.length name - 1)%nat
      then substring 0 i name
      else name
  | None => name
  end.

Arguments stem : simpl never.

(** The values of the dictionary [get_audio_info] returns. *)
Inductive pyval :=
| VNone
| VBool (b : bool)
| VInt (z : Z)
| VNum (q : Q)
| VFloat (r : R)
| VStr (s : string).

(** What [get_audio_info] reads beyond the [World]: [Path.stat()]
    ([st_size], [st_mtime]), the further attributes of an open
    [SoundFile], and the means of the two librosa features. *)
Record Probe := {
  path_stat : history -> string -> result (Z * Q);
  sf_channels : string -> Z;
  sf_format_info : string -> string;
  sf_subtype_info : string -> string;
  zero_crossing_rate_mean : ndarray -> result R;
  spectral_centroid_mean : ndarray -> Z -> result R
}.

(** The state of an inspection: the history, and the paths given to
    [stat()], newest first. *)
Record Inspection := {
  seen : history;
  stats : list string
}.

#[export] Instance inspection_traced : Traced Inspection :=
  {| past := seen;
     record := fun ev s => {| seen := ev :: seen s; stats := stats s |} |}.

(** [str(e)] *)
Definition exn_str (e : exn) : string :=
  match e with
  | ValueError msg => msg
  | KeyError key => String.append "'" (String.append key "'")
  | AttributeError msg => msg
  | ZeroDivisionError => "division by zero"
  | Exception msg => msg
  | ExternalError _ msg => msg
  end.

Definition lift_result {St A} (r : result A) : M St A := fun s => (r, s).

Section AudioUtilsRest.

Variable w : World.
Variable probe : Probe.
Local Open Scope py_scope.

(** [file_path.exists()] *)
Definition path_exists_now {St} `{Traced St} (file_path : string) : M St bool :=
  call (EvPathExists file_path) (fun h => pathlib_exists w h file_path).

Definition stat_now (file_path : string) : M Inspection (Z * Q) :=
  fun s => (path_stat probe (seen s) file_path,
            {| seen := seen s; stats := file_path :: stats s |}).

(** Lines 78-83: the dictionary before anything is read. *)
Definition basic_info (file_path : string) (present1 present2 : bool) : gmap string pyval :=
  <["format" := if present2 then VStr (lower (suffix file_path)) else VNone]>
    (<["exists" := VBool present1]>
       (<["file_size" := VInt 0]>
          (<["file_path" := VStr file_path]> ∅))).

(** Lines 99-106: [info.update] with what the open file says. *)
Definition with_audio_fields (file_path : string) (frames samplerate : Z)
    (info : gmap string pyval) : gmap string pyval :=
  <["subtype_info" := VStr (sf_subtype_info probe file_path)]>
    (<["format_info" := VStr (sf_format_info probe file_path)]>
       (<["frames" := VInt frames]>
          (<["channels" := VInt (sf_channels probe file_path)]>
             (<["sample_rate" := VInt samplerate]>
                (<["duration" := VNum (inject_Z frames / inject_Z samplerate)]> info))))).

(** Lines 110-115: the secondary analysis. *)
Definition advanced_analysis (file_path : string) (info : gmap string pyval)
  : M Inspection (gmap string pyval) :=
  loaded <- call (EvLoad (SrcPath file_path) true)
                 (fun h => librosa_load w h (SrcPath file_path) true) ;;
  let y := fst loaded in
  let sr := snd loaded in
  zcr <- lift_result (zero_crossing_rate_mean probe y) ;;
  centroid <- lift_result (spectral_centroid_mean probe y sr) ;;
  ret (<["spectral_centroid" := VFloat centroid]>
         (<["zero_crossing_rate" := VFloat zcr]>
            (<["rms_energy" := VFloat (current_rms y)]> info))).

(** Lines 97-117: the body of the outer [try]. *)
Definition detailed_info (file_path : string) (info : gmap string pyval)
  : M Inspection (gmap string pyval) :=
  audio <- call (EvSoundFile file_path) (fun h => sf_SoundFile w h file_path) ;;
  let frames := fst audio in
  let samplerate := snd audio in
  if samplerate =? 0 then raise ZeroDivisionError
  else
    let info := with_audio_fields file_path frames samplerate info in
    try_except (advanced_analysis file_path info) (fun _ => ret info).

(** Lines 68-123. The three calls of [file_path.exists()] (lines 81, 82
    and 85) and [file_path.stat()] (line 89) are before the [try]. *)
Definition get_audio_info (file_path : string) : M Inspection (gmap string pyval) :=
  present1 <- path_exists_now file_path ;;
  present2 <- path_exists_now file_path ;;
  let info := basic_info file_path present1 present2 in
  present3 <- path_exists_now file_path ;;
  if negb present3 then ret info
  else
    st <- stat_now file_path ;;
    let info := <["modified_time" := VNum (snd st)]> (<["file_size" := VInt (fst st)]> info) in
    if negb (AUDIO_LIBS_AVAILABLE w) then ret info
    else
      try_except (detailed_info file_path info)
        (fun e => ret (<["error" := VStr (exn_str e)]> info)).

(** Line 213: the name of the processed file. *)
Definition processed_path (file_path output_dir : string) : string :=
  path_join w output_dir
    (String.append "processed_" (String.append (stem file_path) ".wav")).

Definition prepare_audio_for_tts (file_path output_dir : string) : M history (option string) :=
  valid <- validate_audio_format w file_path ;;
  if negb valid then ret None
  else
    let output_path := processed_path file_path output_dir in
    done <- normalize_audio w file_path output_path None 1 true ;;
    if done then ret (Some output_path) else ret None.

End AudioUtilsRest.

(** ** The rest of [app/tts_synthesizer_real.py] *)

(** Whether [old] occurs in [s]. *)
Fixpoint occurs (old s : string) : bool :=
  String.prefix old s
  || match s with
     | EmptyString => false
     | String _ r => occurs old r
     end.

(** The same world with another answer to [os.remove]. *)
Definition with_os_remove (f : history -> string -> result unit) (w : World) : World :=
  {| AUDIO_LIBS_AVAILABLE := AUDIO_LIBS_AVAILABLE w;
     config := config w;
     path_exists := path_exists w;
     pathlib_exists := pathlib_exists w;
     mkdir := mkdir w;
     os_makedirs := os_makedirs w;
     os_remove := f;
     os_path_dirname := os_path_dirname w;
     path_join := path_join w;
     sf_SoundFile := sf_SoundFile w;
     librosa_load := librosa_load w;
     librosa_resample := librosa_resample w;
     sf_write := sf_write w;
     pyttsx3_init := pyttsx3_init w;
     setProperty := setProperty w;
     getProperty_voices := getProperty_voices w;
     save_to_file := save_to_file w;
     runAndWait := runAndWait w;
     gTTS := gTTS w;
     write_to_fp := write_to_fp w;
     time_time := time_time w;
     uuid4 := uuid4 w |}.

(** The process: the module variable [_synthesizer_instance], which holds
    the one object every caller shares, and the history. *)
Record Process := {
  _synthesizer_instance : option RealTTSSynthesizer;
  journal : history
}.

Section Singleton.

Variable w : World.

Definition get_synthesizer (p : Process) : result RealTTSSynthesizer * Process :=
  match _synthesizer_instance p with
  | Some s => (Ok s, p)
  | None =>
      match new_synthesizer w (journal p) with
      | (Ok _, rt) =>
          (Ok (self rt), {| _synthesizer_instance := Some (self rt); journal := trace rt |})
      | (Raised e, rt) =>
          (Raised e, {| _synthesizer_instance := None; journal := trace rt |})
      end
  end.

(** A method called on the object [get_synthesizer()] returns: it runs on
    the shared object and what it does to the object stays. *)
Definition on_synthesizer {A} (method : M Runtime A) (p : Process) : result A * Process :=
  match get_synthesizer p with
  | (Ok s, p1) =>
      match method {| self := s; trace := journal p1 |} with
      | (r, rt) => (r, {| _synthesizer_instance := Some (self rt); journal := trace rt |})
      end
  | (Raised e, p1) => (Raised e, p1)
  end.

Fixpoint get_synthesizer_times (n : nat) (p : Process) : Process :=
  match n with
  | O => p
  | S k => get_synthesizer_times k (snd (get_synthesizer p))
  end.

(** The runtimes an object lives through: built by the constructor, then
    used by [set_voice] and [synthesize_text] in any order, while the rest
    of the process makes external calls of its own. *)
Inductive reachable : Runtime -> Prop :=
| reach_new h : reachable (snd (new_synthesizer w h))
| reach_set_voice rt voice_id :
    reachable rt -> reachable (snd (set_voice w voice_id rt))
| reach_synthesize rt text voice_id output_path sample_rate :
    reachable rt ->
    reachable (snd (synthesize_text w text voice_id output_path sample_rate rt))
| reach_other_call rt ev :
    reachable rt -> reachable (record ev rt).

End Singleton.

Definition init_calls (h : history) : nat :=
  length (List.filter (fun ev => match ev with EvInit => true | _ => false end) h).

(** The newest [sf.write] of a history: its path and rate. *)
Fixpoint last_write (h : history) : option (string * Z) :=
  match h with
  | [] => None
  | EvSfWrite p _ sr :: _ => Some (p, sr)
  | _ :: r => last_write r
  end.

(** A probe whose every reading succeeds. *)
Definition steady_probe : Probe :=
  {| path_stat := fun _ _ => Ok (48044, 1700000000 # 1);
     sf_channels := fun _ => 1;
     sf_format_info := fun _ => "WAV (Microsoft)"%string;
     sf_subtype_info := fun _ => "Signed 16 bit PCM"%string;
     zero_crossing_rate_mean := fun _ => Ok (1 / 10)%R;
     spectral_centroid_mean := fun _ _ => Ok 1500%R |}.

(** The runtime [__init__] starts from (lines 29-31). *)
Definition blank_runtime (h : history) : Runtime :=
  {| self := {| pyttsx3_engine := None; available_voices := ∅; current_voice := "default" |};
     trace := h |}.

(** The history once [get_audio_info] has asked three times whether the
    file exists (lines 81, 82 and 85). *)
Definition after_exists_checks (file_path : string) (h : history) : history :=
  EvPathExists file_path :: EvPathExists file_path :: EvPathExists file_path :: h.

(** The same world with another answer to [Path.exists()]. *)
Definition with_pathlib_exists (f : history -> string -> result bool) (w : World) : World :=
  {| AUDIO_LIBS_AVAILABLE := AUDIO_LIBS_AVAILABLE w;
     config := config w;
     path_exists := path_exists w;
     pathlib_exists := f;
     mkdir := mkdir w;
     os_makedirs := os_makedirs w;
     os_remove := os_remove w;
     os_path_dirname := os_path_dirname w;
     path_join := path_join w;
     sf_SoundFile := sf_SoundFile w;
     librosa_load := librosa_load w;
     librosa_resample := librosa_resample w;
     sf_write := sf_write w;
     pyttsx3_init := pyttsx3_init w;
     setProperty := setProperty w;
     getProperty_voices := getProperty_voices w;
     save_to_file := save_to_file w;
     runAndWait := runAndWait w;
     gTTS := gTTS w;
     write_to_fp := write_to_fp w;
     time_time := time_time w;
     uuid4 := uuid4 w |}.

Definition new_inspection : Inspection := {| seen := []; stats := [] |}.

(** The same world with another answer to [os.makedirs]. *)
Definition with_os_makedirs (f : history -> string -> result unit) (w : World) : World :=
  {| AUDIO_LIBS_AVAILABLE := AUDIO_LIBS_AVAILABLE w;
     config := config w;
     path_exists := path_exists w;
     pathlib_exists := pathlib_exists w;
     mkdir := mkdir w;
     os_makedirs := f;
     os_remove := os_remove w;
     os_path_dirname := os_path_dirname w;
     path_join := path_join w;
     sf_SoundFile := sf_SoundFile w;
     librosa_load := librosa_load w;
     librosa_resample := librosa_resample w;
     sf_write := sf_write w;
     pyttsx3_init := pyttsx3_init w;
     setProperty := setProperty w;
     getProperty_voices := getProperty_voices w;
     save_to_file := save_to_file w;
     runAndWait := runAndWait w;
     gTTS := gTTS w;
     write_to_fp := write_to_fp w;
     time_time := time_time w;
     uuid4 := uuid4 w |}.

(** A world in which [Path.exists()] raises [PermissionError] for one
    path, as it does below a directory the process may not search. *)
Definition unreadable_world (path : string) : World :=
  with_pathlib_exists
    (fun _ p =>
       if String.eqb p path
       then Raised (ExternalError "PermissionError" "[Errno 13] Permission denied")
       else Ok true)
    (world_with_file 60).

(* ================================================================== *)
(** * Properties *)

(** ** Text preprocessing *)

Section PreprocessFacts.

Variable unicode_isalnum : codepoint -> bool.

Lemma fields_not_nil s : fields s <> [].
Proof.
  destruct s as [|c r]; simpl; [discriminate|].
  destruct (is_space c); [discriminate|].
  destruct (fields r); discriminate.
Qed.

Lemma rstrip_all_space s : all_space s = true -> rstrip s = [].
Proof.
  induction s as [|c r IH]; simpl; [reflexivity|].
  intros [Hc Hr]%andb_prop. rewrite (IH Hr), Hc. reflexivity.
Qed.

Lemma rstrip_nil_all_space s : rstrip s = [] -> all_space s = true.
Proof.
  induction s as [|c r IH]; simpl; [reflexivity|].
  destruct (rstrip r) eqn:E; [|discriminate].
  destruct (is_space c); [|discriminate].
  intros _. simpl. apply IH. reflexivity.
Qed.

Lemma words_all_space s : all_space s = true -> words s = [].
Proof.
  unfold words. induction s as [|c r IH]; simpl; [reflexivity|].
  intros [Hc Hr]%andb_prop. rewrite Hc. simpl. apply IH, Hr.
Qed.

Lemma words_nil_all_space s : words s = [] -> all_space s = true.
Proof.
  unfold words. induction s as [|c r IH]; simpl; [reflexivity|].
  destruct (is_space c) eqn:Hc; simpl.
  - intros H. apply IH, H.
  - destruct (fields r); simpl; discriminate.
Qed.

Lemma sub_spaces_from_cons b c t :
  sub_spaces_from b (c :: t) =
  if is_space c
  then (if b then sub_spaces_from true t else 32 :: sub_spaces_from true t)
  else c :: sub_spaces_from false t.
Proof. reflexivity. Qed.

Lemma rstrip_cons c r :
  rstrip (c :: r) =
  match rstrip r with
  | [] => if is_space c then [] else [c]
  | _ :: _ => c :: rstrip r
  end.
Proof. simpl. destruct (rstrip r); reflexivity. Qed.

Lemma sub_spaces_rstrip s :
  sub_spaces_from true (rstrip s) = join (words s)
  /\ sub_spaces_from false (rstrip s) = after_word s.
Proof.
  unfold after_word, words.
  induction s as [|c r [IHt IHf]]; [split; reflexivity|].
  rewrite rstrip_cons. cbn [fields].
  destruct (is_space c) eqn:Hc.
  - cbn [List.filter nonempty app].
    destruct (rstrip r) as [|c' r'] eqn:Er.
    + pose proof (words_all_space r (rstrip_nil_all_space r Er)) as Hw.
      unfold words in Hw. rewrite Hw. split; reflexivity.
    + assert (Hne : List.filter nonempty (fields r) <> []).
      { intros Hw. apply words_nil_all_space, rstrip_all_space in Hw. congruence. }
      rewrite (sub_spaces_from_cons true c), (sub_spaces_from_cons false c), Hc, IHt.
      destruct (List.filter nonempty (fields r)); [congruence|].
      split; reflexivity.
  - assert (Hstep : forall b, sub_spaces_from b
               (match rstrip r with [] => [c] | _ :: _ => c :: rstrip r end)
             = c :: sub_spaces_from false (rstrip r)).
    { intros b. destruct (rstrip r); rewrite sub_spaces_from_cons, Hc; reflexivity. }
    rewrite !Hstep, IHf.
    destruct (fields r) as [|f fs] eqn:Ef; [exfalso; eapply fields_not_nil; eauto|].
    cbn [List.filter nonempty join].
    destruct (List.filter nonempty fs); split; reflexivity.
Qed.

Lemma sub_spaces_strip s : sub_spaces (strip s) = join (words s).
Proof.
  unfold sub_spaces, strip.
  induction s as [|c r IH]; simpl; [reflexivity|].
  destruct (is_space c) eqn:Hc.
  - rewrite IH. unfold words. simpl. rewrite Hc. reflexivity.
  - destruct (sub_spaces_rstrip (c :: r)) as [Ht Hf].
    rewrite Hf. unfold after_word, words. simpl. rewrite Hc.
    destruct (fields r) as [|f fs] eqn:Ef; [exfalso; eapply fields_not_nil; eauto|].
    cbn [List.filter nonempty join].
    destruct (List.filter nonempty fs); reflexivity.
Qed.

Lemma preprocess_text_described text language :
  preprocess_text unicode_isalnum text language = described_preprocess unicode_isalnum text.
Proof. apply sub_spaces_strip. Qed.

Lemma fields_no_space s : Forall (fun f => no_space f = true) (fields s).
Proof.
  induction s as [|c r IH]; cbn [fields]; [repeat constructor|].
  destruct (is_space c) eqn:Hc; [constructor; [reflexivity|exact IH]|].
  destruct (fields r) as [|f fs]; [repeat constructor; simpl; rewrite Hc; reflexivity|].
  inversion IH; subst. constructor; [|assumption].
  unfold no_space in *. simpl. rewrite Hc. assumption.
Qed.

Lemma fields_forall (P : codepoint -> Prop) s :
  Forall P s -> Forall (Forall P) (fields s).
Proof.
  induction 1 as [|c r Hc Hr IH]; cbn [fields]; [repeat constructor|].
  destruct (is_space c); [constructor; [constructor|exact IH]|].
  destruct (fields r) as [|f fs]; [repeat constructor; assumption|].
  inversion IH; subst. constructor; [constructor|]; assumption.
Qed.

Lemma filter_forall {A} (f : A -> bool) (P : A -> Prop) l :
  Forall P l -> Forall P (List.filter f l).
Proof.
  induction 1 as [|x l Hx Hl IH]; simpl; [constructor|].
  destruct (f x); [constructor|]; assumption.
Qed.

Lemma filter_all {A} (f : A -> bool) l :
  Forall (fun x => f x = true) l -> List.filter f l = l.
Proof.
  induction 1 as [|x l Hx Hl IH]; simpl; [reflexivity|].
  rewrite Hx, IH. reflexivity.
Qed.

Lemma filter_holds {A} (f : A -> bool) l :
  Forall (fun x => f x = true) (List.filter f l).
Proof.
  induction l as [|x l IH]; simpl; [constructor|].
  destruct (f x) eqn:E; [constructor|]; assumption.
Qed.

Lemma join_forall (P : codepoint -> Prop) ws :
  P 32 -> Forall (Forall P) ws -> Forall P (join ws).
Proof.
  intros Hsp. induction 1 as [|w ws Hw Hws IH]; cbn [join]; [constructor|].
  apply Forall_app. split; [assumption|].
  destruct ws; [constructor|]. constructor; assumption.
Qed.

Lemma fields_app_word w rest :
  no_space w = true ->
  fields (w ++ rest) =
  match fields rest with
  | f :: fs => (w ++ f) :: fs
  | [] => [w]
  end.
Proof.
  unfold no_space.
  induction w as [|c w IH]; simpl.
  - intros _. destruct (fields rest) eqn:E; [|reflexivity].
    exfalso. eapply fields_not_nil; eauto.
  - intros [Hc Hw]%andb_prop. apply negb_true_iff in Hc. rewrite Hc, (IH Hw).
    destruct (fields rest) eqn:E; [|reflexivity].
    exfalso. eapply fields_not_nil; eauto.
Qed.

Lemma words_proper s : Forall proper_word (words s).
Proof.
  unfold words. pose proof (fields_no_space s) as H.
  induction H as [|f fs Hf Hfs IH]; simpl; [constructor|].
  destruct (nonempty f) eqn:E; [constructor; [split|]|]; assumption.
Qed.

Lemma words_join ws : Forall proper_word ws -> words (join ws) = ws.
Proof.
  induction 1 as [|w ws [Hne Hns] Hws IH]; [reflexivity|].
  cbn [join]. unfold words in *. rewrite (fields_app_word _ _ Hns).
  destruct ws as [|w' ws'].
  - simpl. rewrite app_nil_r, Hne. reflexivity.
  - change (fields (32 :: join (w' :: ws'))) with ([] :: fields (join (w' :: ws'))).
    cbn [List.filter]. rewrite app_nil_r, Hne. simpl nonempty. cbv iota.
    rewrite IH. reflexivity.
Qed.

Lemma kept_space c : is_space c = true -> kept unicode_isalnum c = true.
Proof. unfold kept. intros ->. rewrite orb_true_r. reflexivity. Qed.

Lemma described_preprocess_idempotent t :
  described_preprocess unicode_isalnum (described_preprocess unicode_isalnum t)
  = described_preprocess unicode_isalnum t.
Proof.
  unfold described_preprocess.
  set (ws := words (List.filter (kept unicode_isalnum) t)).
  assert (Hk : Forall (fun c => kept unicode_isalnum c = true) (join ws)).
  { apply join_forall; [apply kept_space; reflexivity|].
    unfold ws, words. apply filter_forall, fields_forall, filter_holds. }
  rewrite (filter_all _ _ Hk). rewrite words_join; [reflexivity|apply words_proper].
Qed.

(** C6. [preprocess_text] removes every character outside the word
    characters, whitespace and [. , ! ? ; : -], replaces each run of
    whitespace by one space and trims both ends: it returns the words of
    the filtered text joined by single spaces. It is idempotent, and on
    "Olá, mundo!!! @@@ 123" it returns "Olá, mundo!!! 123". *)
Theorem preprocess_text_filters_collapses_trims :
  (forall text language,
      preprocess_text unicode_isalnum text language
      = join (words (List.filter (kept unicode_isalnum) text)))
  /\ (forall text language,
        preprocess_text unicode_isalnum
          (preprocess_text unicode_isalnum text language) language
        = preprocess_text unicode_isalnum text language)
  /\ (forall language,
        preprocess_text unicode_isalnum (py "Olá, mundo!!! @@@ 123") language
        = py "Olá, mundo!!! 123").
Proof.
  split; [|split].
  - intros. apply preprocess_text_described.
  - intros. rewrite !preprocess_text_described.
    apply described_preprocess_idempotent.
  - intros. vm_compute. reflexivity.
Qed.

(** C9. The result of [preprocess_text] depends only on the text: the
    language argument is ignored. *)
Theorem preprocess_text_ignores_language text l1 l2 :
  preprocess_text unicode_isalnum text l1 = preprocess_text unicode_isalnum text l2.
Proof. reflexivity. Qed.

End PreprocessFacts.

(** ** Audio normalisation *)

Section AudioFacts.

Variable w : World.
Local Open Scope R_scope.









Lemma clip1_range x : -1 <= clip1 (-1) 1 x <= 1.
Proof.
  unfold clip1. split.
  - apply Rmin_glb; [apply Rmax_r|lra].
  - apply Rmin_r.
Qed.

End AudioFacts.

Section AudioRuns.

Variable w : World.

Lemma convert_to_mono_is_mono y : exists l, convert_channels y 1 = Arr1 l.
Proof.
  unfold convert_channels. destruct y as [l|rows]; simpl; eexists; reflexivity.
Qed.

Lemma resample_array_mono l a b y : resample_array w (Arr1 l) a b = Ok y -> exists l', y = Arr1 l'.
Proof.
  simpl. destruct (librosa_resample w l a b); [|discriminate].
  intros [= <-]. eexists; reflexivity.
Qed.

(** What a run of [normalize_audio] that returns [True] has done. *)
Lemma normalize_audio_success input output target_sr target_channels normalize_volume h :
  fst (normalize_audio w input output target_sr target_channels normalize_volume h) = Ok true ->
  exists y0 sr0 y1 rest,
    AUDIO_LIBS_AVAILABLE w = true
    /\ librosa_load w h (SrcPath input) false = Ok (y0, sr0)
    /\ (if sr0 =? effective_sr w target_sr
        then y1 = convert_channels y0 target_channels
        else resample_array w (convert_channels y0 target_channels) sr0
               (effective_sr w target_sr) = Ok y1)
    /\ snd (normalize_audio w input output target_sr target_channels normalize_volume h)
       = EvSfWrite output
           (np_clip (if normalize_volume then volume_normalized y1 else y1) (-1) 1)
           (effective_sr w target_sr)
         :: EvMkdir (parent output) :: rest.
Proof.
  unfold normalize_audio.
  destruct (AUDIO_LIBS_AVAILABLE w); simpl; [|discriminate].
  unfold try_except, normalize_steps, bind, call, ret. simpl.
  destruct (librosa_load w h (SrcPath input) false) as [[y0 sr0]|e]; simpl; [|discriminate].
  destruct (sr0 =? effective_sr w target_sr) eqn:Hsr; simpl.
  - apply Z.eqb_eq in Hsr. subst sr0.
    destruct (mkdir w _ _); simpl; [|discriminate].
    destruct (sf_write w _ _ _ _); simpl; [|discriminate].
    intros _. exists y0, (effective_sr w target_sr), (convert_channels y0 target_channels).
    eexists. rewrite Z.eqb_refl. repeat split; reflexivity.
  - destruct (resample_array w _ _ _) as [y1|e] eqn:Hres; simpl; [|discriminate].
    destruct (mkdir w _ _); simpl; [|discriminate].
    destruct (sf_write w _ _ _ _); simpl; [|discriminate].
    intros _. exists y0, sr0, y1. eexists. rewrite Hsr.
    repeat split; try reflexivity. exact Hres.
Qed.

End AudioRuns.

Section VolumeAndClip.

Local Open Scope R_scope.

Lemma current_rms_single x : 0 <= x -> current_rms (Arr1 [x]) = x.
Proof.
  intros Hx. unfold current_rms, mean_square. simpl.
  replace ((x * x + 0) / 1) with (Rsqr x) by (unfold Rsqr; field).
  apply sqrt_Rsqr, Hx.
Qed.

Lemma array_map_mono f y : (exists l, y = Arr1 l) -> exists l', array_map f y = Arr1 l'.
Proof. intros [l ->]. eexists; reflexivity. Qed.

Lemma volume_normalized_mono l : exists l', volume_normalized (Arr1 l) = Arr1 l'.
Proof.
  unfold volume_normalized. destruct (Rlt_dec _ _); eexists; reflexivity.
Qed.






(** C10. Without the codec libraries [normalize_audio] returns [False] for
    every input, without an external call and without raising. *)
Theorem normalize_audio_degraded w input output target_sr target_channels normalize_volume h :
  AUDIO_LIBS_AVAILABLE w = false ->
  normalize_audio w input output target_sr target_channels normalize_volume h = (Ok false, h).
Proof.
  intros Hlibs. unfold normalize_audio. rewrite Hlibs. reflexivity.
Qed.

Lemma normalize_audio_degraded_witness :
  normalize_audio (world_with_samples false (Arr1 [1 / 2])) "in/a.wav" "out/a.wav"
    None 1 true []
  = (Ok false, []).
Proof.
  apply normalize_audio_degraded. reflexivity.
Defined.

End VolumeAndClip.

(** ** Audio validation *)

Section Validation.

Variable w : World.

Lemma Qltb_lt a b : Qltb a b = true <-> (a < b)%Q.
Proof.
  unfold Qltb. rewrite negb_true_iff. split.
  - intros H. apply Qnot_le_lt. intros Hle. apply Qle_bool_iff in Hle. congruence.
  - intros H. destruct (Qle_bool b a) eqn:E; [|reflexivity].
    apply Qle_bool_iff in E. exfalso. exact (Qlt_not_le _ _ H E).
Qed.

Lemma Qltb_ge a b : Qltb a b = false <-> (b <= a)%Q.
Proof.
  unfold Qltb. rewrite negb_false_iff. apply Qle_bool_iff.
Qed.

(** The duration of a file of a whole number of seconds. *)
Lemma whole_seconds secs samplerate :
  0 < samplerate ->
  (inject_Z (secs * samplerate) / inject_Z samplerate == inject_Z secs)%Q.
Proof.
  intros Hpos. rewrite inject_Z_mult. field.
  intros H. unfold Qeq in H. simpl in H. lia.
Qed.

Lemma check_duration_result file_path frames samplerate h :
  sf_SoundFile w h file_path = Ok (frames, samplerate) ->
  samplerate <> 0 ->
  fst (check_duration w file_path h)
  = Ok (negb (Qltb (inject_Z frames / inject_Z samplerate)
                (inject_Z (MIN_AUDIO_DURATION (config w))))
        && negb (Qltb (inject_Z (MAX_AUDIO_DURATION (config w)))
                   (inject_Z frames / inject_Z samplerate))).
Proof.
  intros Hsf Hsr. unfold check_duration, bind, call. simpl. rewrite Hsf. simpl.
  apply Z.eqb_neq in Hsr. rewrite Hsr.
  destruct (Qltb _ _); simpl; [reflexivity|].
  destruct (Qltb _ _); reflexivity.
Qed.

Lemma validate_audio_format_decoding file_path h :
  pathlib_exists w h file_path = Ok true ->
  str_in (lower (suffix file_path)) SUPPORTED_INPUT_FORMATS = true ->
  AUDIO_LIBS_AVAILABLE w = true ->
  fst (validate_audio_format w file_path h)
  = match fst (check_duration w file_path (EvPathExists file_path :: h)) with
    | Ok b => Ok b
    | Raised _ => Ok false
    end.
Proof.
  intros Hex Hext Hlibs.
  unfold validate_audio_format, bind, call, try_except, ret. simpl.
  rewrite Hex. simpl. rewrite Hext, Hlibs. simpl.
  destruct (check_duration w file_path (EvPathExists file_path :: h)) as [[b|e] h'];
    reflexivity.
Qed.

(** [file_path.exists()] (line 37) is outside the [try]: what it raises,
    [validate_audio_format] raises. *)
Lemma validate_audio_format_raises file_path h e :
  pathlib_exists w h file_path = Raised e ->
  validate_audio_format w file_path h = (Raised e, EvPathExists file_path :: h).
Proof.
  intros Hex. unfold validate_audio_format, bind, call. simpl. rewrite Hex. reflexivity.
Qed.

Lemma validate_audio_format_returns file_path h present :
  pathlib_exists w h file_path = Ok present ->
  exists b, fst (validate_audio_format w file_path h) = Ok b.
Proof.
  intros Hex.
  unfold validate_audio_format, bind, call, try_except, ret. simpl. rewrite Hex. simpl.
  destruct present; simpl; [|eexists; reflexivity].
  destruct (str_in _ _); simpl; [|eexists; reflexivity].
  destruct (AUDIO_LIBS_AVAILABLE w); simpl; [|eexists; reflexivity].
  destruct (check_duration w file_path (EvPathExists file_path :: h)) as [[b|e] h'];
    eexists; reflexivity.
Qed.

Lemma validate_whole_seconds file_path secs samplerate h :
  pathlib_exists w h file_path = Ok true ->
  str_in (lower (suffix file_path)) SUPPORTED_INPUT_FORMATS = true ->
  AUDIO_LIBS_AVAILABLE w = true ->
  0 < samplerate ->
  sf_SoundFile w (EvPathExists file_path :: h) file_path = Ok (secs * samplerate, samplerate) ->
  fst (validate_audio_format w file_path h)
  = Ok ((MIN_AUDIO_DURATION (config w) <=? secs) && (secs <=? MAX_AUDIO_DURATION (config w))).
Proof.
  intros Hex Hext Hlibs Hpos Hsf.
  rewrite (validate_audio_format_decoding _ _ Hex Hext Hlibs).
  rewrite (check_duration_result _ _ _ _ Hsf) by lia.
  f_equal. f_equal.
  - destruct (Qltb _ _) eqn:E; simpl; symmetry.
    + apply Qltb_lt in E. rewrite (whole_seconds _ _ Hpos) in E.
      rewrite <- Zlt_Qlt in E. apply Z.leb_gt. exact E.
    + apply Qltb_ge in E. rewrite (whole_seconds _ _ Hpos) in E.
      rewrite <- Zle_Qle in E. apply Z.leb_le. exact E.
  - destruct (Qltb _ _) eqn:E; simpl; symmetry.
    + apply Qltb_lt in E. rewrite (whole_seconds _ _ Hpos) in E.
      rewrite <- Zlt_Qlt in E. apply Z.leb_gt. exact E.
    + apply Qltb_ge in E. rewrite (whole_seconds _ _ Hpos) in E.
      rewrite <- Zle_Qle in E. apply Z.leb_le. exact E.
Qed.

End Validation.




(** ** The synthesizer *)

Section RegistryFacts.

Lemma system_voice_id_not_builtin i : system_voice_id i <> "gtts_pt"%string.
Proof. unfold system_voice_id. simpl. discriminate. Qed.

Lemma add_system_voices_keeps_gtts_pt voices : forall i registry,
  add_system_voices i voices registry !! "gtts_pt"%string = registry !! "gtts_pt"%string.
Proof.
  induction voices as [|voice rest IH]; intros i registry; simpl; [reflexivity|].
  rewrite IH. apply lookup_insert_ne, system_voice_id_not_builtin.
Qed.

Lemma builtin_has_gtts_pt : builtin_voices !! "gtts_pt"%string = Some gtts_pt_voice.
Proof. reflexivity. Qed.

Lemma network_only_has_gtts_pt : network_only_voices !! "gtts_pt"%string = Some gtts_pt_voice.
Proof. reflexivity. Qed.

End RegistryFacts.

(** C8. After [RealTTSSynthesizer()], whatever the engines did, the
    constructor has returned and the registry holds under ["gtts_pt"] the
    network voice for Portuguese; so the registry is not empty. *)
Theorem registry_always_has_network_default w h :
  fst (new_synthesizer w h) = Ok tt
  /\ available_voices (self (snd (new_synthesizer w h))) !! "gtts_pt"%string
     = Some gtts_pt_voice
  /\ engine gtts_pt_voice = "gtts"%string
  /\ lang gtts_pt_voice = "pt"%string
  /\ available_voices (self (snd (new_synthesizer w h))) <> ∅.
Proof.
  assert (H : fst (new_synthesizer w h) = Ok tt
              /\ available_voices (self (snd (new_synthesizer w h))) !! "gtts_pt"%string
                 = Some gtts_pt_voice).
  { unfold new_synthesizer, _initialize_engines, start_engines, try_except, bind,
      engine_call, call, update_self, get_self, bind. simpl.
    destruct (pyttsx3_init w h); simpl; [|split; reflexivity].
    destruct (setProperty w _ "rate"%string _); simpl; [|split; reflexivity].
    destruct (setProperty w _ "volume"%string _); simpl; [|split; reflexivity].
    destruct (getProperty_voices w _) as [voices|e]; simpl; [|split; reflexivity].
    split; [reflexivity|].
    rewrite add_system_voices_keeps_gtts_pt. reflexivity. }
  destruct H as [Hret Hreg]. repeat split; try assumption.
  intros Hempty. rewrite Hempty in Hreg. rewrite lookup_empty in Hreg. discriminate.
Qed.

(** C7. [set_voice] with an identifier the registry lacks returns [False]
    and changes nothing, neither the object nor the history. With an
    identifier the registry has it returns [True] and the object differs
    from before in its current voice only, which is that identifier; this
    holds whatever [setProperty] answers, and when binding the system
    voice raises, the call still returns [True] with the current voice
    set. *)
Theorem set_voice_frame w voice_id rt :
  (available_voices (self rt) !! voice_id = None ->
   set_voice w voice_id rt = (Ok false, rt))
  /\ (forall voice_info,
        available_voices (self rt) !! voice_id = Some voice_info ->
        fst (set_voice w voice_id rt) = Ok true
        /\ self (snd (set_voice w voice_id rt)) = set_current_voice voice_id (self rt)
        /\ current_voice (self (snd (set_voice w voice_id rt))) = voice_id)
  /\ (forall voice_info voice e,
        available_voices (self rt) !! voice_id = Some voice_info ->
        engine voice_info = "pyttsx3"%string ->
        system_voice voice_info = Some voice ->
        pyttsx3_engine (self rt) = Some tt ->
        setProperty w (trace rt) "voice" (PStr (sv_id voice)) = Raised e ->
        set_voice w voice_id rt
        = (Ok true,
           {| self := set_current_voice voice_id (self rt);
              trace := EvSetProperty "voice" (PStr (sv_id voice)) :: trace rt |})).
Proof.
  split; [|split].
  - intros Hnone. unfold set_voice, bind, get_self. simpl. rewrite Hnone.
    destruct rt; reflexivity.
  - intros voice_info Hsome. unfold set_voice, bind, get_self, update_self. simpl.
    rewrite Hsome. simpl.
    destruct (system_voice voice_info) as [voice|]; simpl; [|repeat split].
    destruct (String.eqb (engine voice_info) "pyttsx3"); simpl; [|repeat split].
    unfold try_except, set_engine_voice, engine_call, bind, get_self, call, raise, ret. simpl.
    destruct (pyttsx3_engine (self rt)); simpl; [|repeat split].
    destruct (setProperty w _ _ _); simpl; repeat split.
  - intros voice_info voice e Hsome Heng Hsv Hengine Hfail.
    unfold set_voice, bind, get_self, update_self. simpl.
    rewrite Hsome. simpl. rewrite Hsv, Heng. simpl.
    unfold try_except, set_engine_voice, engine_call, bind, get_self, call, raise, ret. simpl.
    rewrite Hengine. simpl. rewrite Hfail. reflexivity.
Qed.

Lemma set_voice_frame_witness :
  set_voice (studio_world true true) "nonexistent-id" (studio_runtime true true)
  = (Ok false, studio_runtime true true)
  /\ fst (set_voice (with_setProperty (fun _ _ _ => Raised (ExternalError "pyttsx3" "no such voice"))
                       (studio_world true true))
            "system_0" (studio_runtime true true)) = Ok true
  /\ current_voice
       (self (snd (set_voice
                     (with_setProperty
                        (fun _ _ _ => Raised (ExternalError "pyttsx3" "no such voice"))
                        (studio_world true true))
                     "system_0" (studio_runtime true true)))) = "system_0"%string.
Proof.
  split.
  - destruct (set_voice_frame (studio_world true true) "nonexistent-id"%string
                (studio_runtime true true)) as (Habsent & _ & _).
    apply Habsent. reflexivity.
  - destruct (set_voice_frame
                (with_setProperty (fun _ _ _ => Raised (ExternalError "pyttsx3" "no such voice"))
                   (studio_world true true))
                "system_0"%string (studio_runtime true true)) as (_ & Hpresent & _).
    destruct (Hpresent (system_voice_entry 0 {| sv_id := "voices/maria"; sv_name := Some "Maria" |})
                eq_refl) as (Hret & _ & Hcur).
    split; assumption.
Defined.

(** ** Traces of the two synthesis paths *)

Section Keeps.

Context {X : Type} (f : Runtime -> X).

Lemma keeps_ret {A} (a : A) : keeps f (ret a).
Proof. intros rt. reflexivity. Qed.

Lemma keeps_raise {A} e : keeps f (@raise Runtime A e).
Proof. intros rt. reflexivity. Qed.

Lemma keeps_get_self : keeps f get_self.
Proof. intros rt. reflexivity. Qed.

Lemma keeps_bind {A B} (m : M Runtime A) (k : A -> M Runtime B) :
  keeps f m -> (forall a, keeps f (k a)) -> keeps f (bind m k).
Proof.
  intros Hm Hk rt. unfold bind. specialize (Hm rt).
  destruct (m rt) as [[a|e] rt']; simpl in *; [|assumption].
  rewrite (Hk a rt'). assumption.
Qed.

Lemma keeps_try {A} (m : M Runtime A) (handler : exn -> M Runtime A) :
  keeps f m -> (forall e, keeps f (handler e)) -> keeps f (try_except m handler).
Proof.
  intros Hm Hh rt. unfold try_except. specialize (Hm rt).
  destruct (m rt) as [[a|e] rt']; simpl in *; [assumption|].
  rewrite (Hh e rt'). assumption.
Qed.

Lemma keeps_call {A} ev (oracle : history -> result A) :
  (forall rt, f (record ev rt) = f rt) -> keeps f (call ev oracle).
Proof. intros Hev rt. apply Hev. Qed.

Lemma keeps_if {A} (b : bool) (m1 m2 : M Runtime A) :
  keeps f m1 -> keeps f m2 -> keeps f (if b then m1 else m2).
Proof. destruct b; auto. Qed.

End Keeps.

Section Paths.

Variable w : World.

Lemma try_reraise {St A} (m : M St A) s : try_except m (fun e => raise e) s = m s.
Proof.
  unfold try_except, raise. destruct (m s) as [[a|e] s']; reflexivity.
Qed.

Lemma keeps_engine_call {X A} (f : Runtime -> X) ev (oracle : history -> result A) :
  (forall rt, f (record ev rt) = f rt) -> keeps f (engine_call ev oracle).
Proof.
  intros Hev. unfold engine_call. apply keeps_bind; [apply keeps_get_self|].
  intros s. destruct (pyttsx3_engine s); [apply keeps_call, Hev|apply keeps_raise].
Qed.

Lemma keeps_load_resample_write {X} (f : Runtime -> X) src output_path sample_rate :
  (forall ev rt, is_gtts_call ev = false -> is_engine_call ev = false ->
                 f (record ev rt) = f rt) ->
  keeps f (load_resample_write w src output_path sample_rate).
Proof.
  intros Hf. unfold load_resample_write.
  apply keeps_bind; [apply keeps_call; intros; apply Hf; reflexivity|].
  intros loaded. apply keeps_bind.
  - apply keeps_if; [apply keeps_call; intros; apply Hf; reflexivity|apply keeps_ret].
  - intros audio_data. apply keeps_call. intros; apply Hf; reflexivity.
Qed.

Lemma gtts_count_record ev rt :
  is_gtts_call ev = false -> gtts_count (record ev rt) = gtts_count rt.
Proof. intros H. unfold gtts_count, gtts_calls. simpl. rewrite H. reflexivity. Qed.

Lemma engine_count_record ev rt :
  is_engine_call ev = false -> engine_count (record ev rt) = engine_count rt.
Proof. intros H. unfold engine_count, engine_calls. simpl. rewrite H. reflexivity. Qed.

(** After the constructor of [gTTS], the network path makes no further
    call to either engine. *)
Lemma network_tail_keeps {X} (f : Runtime -> X) output_path sample_rate :
  (forall ev rt, is_gtts_call ev = false -> is_engine_call ev = false ->
                 f (record ev rt) = f rt) ->
  keeps f (bind (call EvWriteToFp (write_to_fp w))
             (fun temp_buffer =>
                bind (load_resample_write w (SrcBuffer temp_buffer) output_path sample_rate)
                  (fun _ => ret output_path))).
Proof.
  intros Hf. apply keeps_bind; [apply keeps_call; intros; apply Hf; reflexivity|].
  intros buf. apply keeps_bind; [apply keeps_load_resample_write, Hf|].
  intros _. apply keeps_ret.
Qed.

(** The network path constructs [gTTS] exactly once and never touches the
    offline engine or the object. *)
Lemma synthesize_gtts_calls text voice_info output_path sample_rate rt :
  gtts_count (snd (_synthesize_gtts w text voice_info output_path sample_rate rt))
  = S (gtts_count rt)
  /\ engine_count (snd (_synthesize_gtts w text voice_info output_path sample_rate rt))
     = engine_count rt
  /\ self (snd (_synthesize_gtts w text voice_info output_path sample_rate rt)) = self rt.
Proof.
  set (rt1 := {| self := self rt; trace := EvGTTS text (lang voice_info) :: trace rt |}).
  assert (Hrun : snd (_synthesize_gtts w text voice_info output_path sample_rate rt)
                 = match gTTS w (trace rt) text (lang voice_info) with
                   | Ok _ =>
                       snd (bind (call EvWriteToFp (write_to_fp w))
                              (fun temp_buffer =>
                                 bind (load_resample_write w (SrcBuffer temp_buffer)
                                         output_path sample_rate)
                                   (fun _ => ret output_path)) rt1)
                   | Raised _ => rt1
                   end).
  { unfold _synthesize_gtts. rewrite try_reraise.
    unfold bind at 1. unfold call at 1. cbn [past record runtime_traced].
    destruct (gTTS w (trace rt) text (lang voice_info)); reflexivity. }
  rewrite Hrun. clear Hrun.
  destruct (gTTS w (trace rt) text (lang voice_info)); [|repeat split; reflexivity].
  repeat split.
  - rewrite (network_tail_keeps gtts_count output_path sample_rate); [reflexivity|].
    intros; apply gtts_count_record; assumption.
  - rewrite (network_tail_keeps engine_count output_path sample_rate); [reflexivity|].
    intros; apply engine_count_record; assumption.
  - rewrite (network_tail_keeps self output_path sample_rate); [reflexivity|].
    reflexivity.
Qed.

(** The offline attempt never constructs [gTTS] and leaves the object as
    it is. *)
Lemma offline_attempt_keeps {X} (f : Runtime -> X) text voice_info output_path sample_rate :
  (forall ev rt, is_gtts_call ev = false -> f (record ev rt) = f rt) ->
  keeps f (offline_attempt w text voice_info output_path sample_rate).
Proof.
  intros Hf. unfold offline_attempt.
  apply keeps_bind.
  { destruct (system_voice voice_info); [|apply keeps_ret].
    apply keeps_engine_call. intros; apply Hf; reflexivity. }
  intros _. apply keeps_bind; [apply keeps_engine_call; intros; apply Hf; reflexivity|].
  intros _. apply keeps_bind; [apply keeps_engine_call; intros; apply Hf; reflexivity|].
  intros _. apply keeps_bind; [apply keeps_call; intros; apply Hf; reflexivity|].
  intros present. apply keeps_if; [apply keeps_raise|].
  apply keeps_bind.
  { apply keeps_load_resample_write. intros; apply Hf; assumption. }
  intros _. apply keeps_bind; [|intros; apply keeps_ret].
  apply keeps_try; [apply keeps_call; intros; apply Hf; reflexivity|].
  intros; apply keeps_ret.
Qed.

End Paths.

(** ** Routing and fallback *)

Section Routing.

Variable w : World.

Lemma synthesize_text_routes text voice_id output_path sample_rate rt voice_info :
  strip text <> [] ->
  output_path <> ""%string ->
  available_voices (self rt) !! voice_to_use (self rt) voice_id = Some voice_info ->
  os_makedirs w (trace rt) (os_path_dirname w output_path) = Ok tt ->
  synthesize_text w text voice_id (Some output_path) sample_rate rt
  = dispatch w text voice_info output_path sample_rate (at_dispatch w output_path rt).
Proof.
  intros Htext Hout Hreg Hdir. unfold synthesize_text.
  destruct (strip text) as [|c r]; [contradiction|].
  unfold bind at 1. unfold get_self at 1. cbn [fst snd].
  rewrite Hreg. unfold truthy.
  apply String.eqb_neq in Hout. rewrite Hout.
  unfold bind, ret, call. cbn [past record runtime_traced]. rewrite Hdir.
  reflexivity.
Qed.

Lemma dispatch_network text voice_info output_path sample_rate rt :
  engine voice_info = "gtts"%string ->
  dispatch w text voice_info output_path sample_rate rt
  = _synthesize_gtts w text voice_info output_path sample_rate rt.
Proof.
  intros Heng. unfold dispatch. rewrite try_reraise, Heng. reflexivity.
Qed.

Lemma dispatch_offline text voice_info output_path sample_rate rt :
  engine voice_info <> "gtts"%string ->
  dispatch w text voice_info output_path sample_rate rt
  = match offline_attempt w text voice_info output_path sample_rate rt with
    | (Ok p, rt1) => (Ok p, rt1)
    | (Raised _, rt1) => _synthesize_gtts w text gtts_voice output_path sample_rate rt1
    end.
Proof.
  intros Heng. unfold dispatch. rewrite try_reraise.
  apply String.eqb_neq in Heng. rewrite Heng.
  unfold _synthesize_pyttsx3, try_except.
  destruct (offline_attempt w text voice_info output_path sample_rate rt) as [[p|e] rt1];
    reflexivity.
Qed.

End Routing.

(** C2. A request that reaches the dispatch with an offline voice and
    whose offline attempt raises is served by the network path, called
    with the language ["pt"] from the state the failed attempt left: the
    whole call constructs [gTTS] exactly once, and returns the output path
    when that path succeeds. An offline attempt that succeeds is the
    result, with no network call. A request that reaches the dispatch with
    a network voice is the network path alone: one construction of
    [gTTS], no call to the offline engine, and what it raises is raised by
    [synthesize_text]. *)
Theorem offline_failure_retried_once_on_network
    w text voice_id output_path sample_rate rt voice_info :
  strip text <> [] ->
  output_path <> ""%string ->
  available_voices (self rt) !! voice_to_use (self rt) voice_id = Some voice_info ->
  os_makedirs w (trace rt) (os_path_dirname w output_path) = Ok tt ->
  (engine voice_info <> "gtts"%string ->
   forall e rt1,
     offline_attempt w text voice_info output_path sample_rate (at_dispatch w output_path rt)
     = (Raised e, rt1) ->
     synthesize_text w text voice_id (Some output_path) sample_rate rt
     = _synthesize_gtts w text gtts_voice output_path sample_rate rt1
     /\ lang gtts_voice = "pt"%string
     /\ gtts_calls (trace rt1) = gtts_calls (trace rt)
     /\ gtts_calls (trace (snd (synthesize_text w text voice_id (Some output_path)
                                  sample_rate rt)))
        = S (gtts_calls (trace rt))
     /\ (forall rt2,
           _synthesize_gtts w text gtts_voice output_path sample_rate rt1
           = (Ok output_path, rt2) ->
           fst (synthesize_text w text voice_id (Some output_path) sample_rate rt)
           = Ok output_path))
  /\ (engine voice_info <> "gtts"%string ->
      forall p rt1,
        offline_attempt w text voice_info output_path sample_rate
          (at_dispatch w output_path rt) = (Ok p, rt1) ->
        synthesize_text w text voice_id (Some output_path) sample_rate rt = (Ok p, rt1)
        /\ gtts_calls (trace rt1) = gtts_calls (trace rt))
  /\ (engine voice_info = "gtts"%string ->
      synthesize_text w text voice_id (Some output_path) sample_rate rt
      = _synthesize_gtts w text voice_info output_path sample_rate
          (at_dispatch w output_path rt)
      /\ gtts_calls (trace (snd (synthesize_text w text voice_id (Some output_path)
                                   sample_rate rt)))
         = S (gtts_calls (trace rt))
      /\ engine_calls (trace (snd (synthesize_text w text voice_id (Some output_path)
                                     sample_rate rt)))
         = engine_calls (trace rt)
      /\ (forall e,
            fst (_synthesize_gtts w text voice_info output_path sample_rate
                   (at_dispatch w output_path rt)) = Raised e ->
            fst (synthesize_text w text voice_id (Some output_path) sample_rate rt)
            = Raised e)).
Proof.
  intros Htext Hout Hreg Hdir.
  pose proof (synthesize_text_routes w text voice_id output_path sample_rate rt voice_info
                Htext Hout Hreg Hdir) as Hroute.
  assert (Hentry : gtts_count (at_dispatch w output_path rt) = gtts_count rt)
    by (apply gtts_count_record; reflexivity).
  split; [|split].
  - intros Heng e rt1 Hfail.
    pose proof (offline_attempt_keeps w gtts_count text voice_info output_path sample_rate
                  (fun ev r H => gtts_count_record ev r H) (at_dispatch w output_path rt))
      as Hquiet.
    rewrite Hfail in Hquiet. simpl in Hquiet.
    assert (Heq : synthesize_text w text voice_id (Some output_path) sample_rate rt
                  = _synthesize_gtts w text gtts_voice output_path sample_rate rt1).
    { rewrite Hroute, (dispatch_offline w _ _ _ _ _ Heng), Hfail. reflexivity. }
    repeat split.
    + exact Heq.
    + unfold gtts_count in *. congruence.
    + rewrite Heq.
      destruct (synthesize_gtts_calls w text gtts_voice output_path sample_rate rt1)
        as (Hone & _ & _).
      unfold gtts_count in *. congruence.
    + intros rt2 Hok. rewrite Heq, Hok. reflexivity.
  - intros Heng p rt1 Hok.
    pose proof (offline_attempt_keeps w gtts_count text voice_info output_path sample_rate
                  (fun ev r H => gtts_count_record ev r H) (at_dispatch w output_path rt))
      as Hquiet.
    rewrite Hok in Hquiet. simpl in Hquiet.
    split.
    + rewrite Hroute, (dispatch_offline w _ _ _ _ _ Heng), Hok. reflexivity.
    + unfold gtts_count in *. congruence.
  - intros Heng.
    assert (Heq : synthesize_text w text voice_id (Some output_path) sample_rate rt
                  = _synthesize_gtts w text voice_info output_path sample_rate
                      (at_dispatch w output_path rt)).
    { rewrite Hroute. apply dispatch_network, Heng. }
    destruct (synthesize_gtts_calls w text voice_info output_path sample_rate
                (at_dispatch w output_path rt)) as (Hone & Hnone & _).
    repeat split.
    + exact Heq.
    + rewrite Heq. unfold gtts_count in *. congruence.
    + rewrite Heq. unfold engine_count in *. rewrite Hnone. reflexivity.
    + intros e He. rewrite Heq. exact He.
Qed.

Lemma offline_failure_retried_once_on_network_witness :
  fst (synthesize_text (studio_world false true) (py "hello") (Some "default"%string)
         (Some "out/a.wav"%string) 22050 (studio_runtime false true))
  = Ok "out/a.wav"%string
  /\ gtts_calls (trace (snd (synthesize_text (studio_world false true) (py "hello")
                               (Some "default"%string) (Some "out/a.wav"%string) 22050
                               (studio_runtime false true))))
     = 1%nat
  /\ fst (synthesize_text (studio_world true false) (py "hello") (Some "gtts_pt"%string)
            (Some "out/a.wav"%string) 22050 (studio_runtime true false))
     = Raised (ExternalError "gtts" "connection failed").
Proof.
  assert (Hne : engine default_voice <> "gtts"%string) by discriminate.
  assert (Hout : "out/a.wav"%string <> ""%string) by discriminate.
  assert (Htext : strip (py "hello") <> []) by discriminate.
  destruct (offline_failure_retried_once_on_network (studio_world false true) (py "hello")
              (Some "default"%string) "out/a.wav"%string 22050 (studio_runtime false true)
              default_voice Htext Hout eq_refl eq_refl) as (Hfall & _ & _).
  destruct (offline_failure_retried_once_on_network (studio_world true false) (py "hello")
              (Some "gtts_pt"%string) "out/a.wav"%string 22050 (studio_runtime true false)
              gtts_pt_voice Htext Hout eq_refl eq_refl) as (_ & _ & Hnet).
  edestruct (Hfall Hne) as (_ & _ & _ & Hcount & Hok); [vm_compute; reflexivity|].
  destruct (Hnet eq_refl) as (_ & _ & _ & Hraise).
  split; [|split].
  - eapply Hok. vm_compute. reflexivity.
  - exact Hcount.
  - apply Hraise. reflexivity.
Defined.

(** C1, as the code has it. The request is served with the explicit
    [voice_id] when one is given (not empty), otherwise with the current
    voice; when the registry lacks the identifier so chosen, with
    ["gtts_pt"]. So an explicit identifier that the registry lacks goes to
    ["gtts_pt"], whatever the current voice is. The voice description
    handed to the dispatch is the registry's entry for that identifier. *)
Theorem voice_resolution_order rt voice_id :
  (forall v, voice_id = Some v -> v <> ""%string ->
             is_Some (available_voices (self rt) !! v) ->
             voice_to_use (self rt) voice_id = v)
  /\ (forall v, voice_id = Some v -> v <> ""%string ->
                available_voices (self rt) !! v = None ->
                voice_to_use (self rt) voice_id = "gtts_pt"%string)
  /\ (voice_id = None \/ voice_id = Some ""%string ->
      is_Some (available_voices (self rt) !! current_voice (self rt)) ->
      voice_to_use (self rt) voice_id = current_voice (self rt))
  /\ (voice_id = None \/ voice_id = Some ""%string ->
      available_voices (self rt) !! current_voice (self rt) = None ->
      voice_to_use (self rt) voice_id = "gtts_pt"%string)
  /\ (forall w text output_path sample_rate voice_info,
        strip text <> [] ->
        output_path <> ""%string ->
        available_voices (self rt) !! voice_to_use (self rt) voice_id = Some voice_info ->
        os_makedirs w (trace rt) (os_path_dirname w output_path) = Ok tt ->
        synthesize_text w text voice_id (Some output_path) sample_rate rt
        = dispatch w text voice_info output_path sample_rate (at_dispatch w output_path rt)).
Proof.
  split; [|split; [|split; [|split]]].
  - intros v -> Hv [vi Hvi]. unfold voice_to_use, or_else.
    apply String.eqb_neq in Hv. rewrite Hv, Hvi. reflexivity.
  - intros v -> Hv Hnone. unfold voice_to_use, or_else.
    apply String.eqb_neq in Hv. rewrite Hv, Hnone. reflexivity.
  - intros Hid [vi Hvi]. unfold voice_to_use.
    assert (Hor : or_else voice_id (current_voice (self rt)) = current_voice (self rt))
      by (destruct Hid as [-> | ->]; reflexivity).
    rewrite Hor, Hvi. reflexivity.
  - intros Hid Hnone. unfold voice_to_use.
    assert (Hor : or_else voice_id (current_voice (self rt)) = current_voice (self rt))
      by (destruct Hid as [-> | ->]; reflexivity).
    rewrite Hor, Hnone. reflexivity.
  - intros w text output_path sample_rate voice_info. apply synthesize_text_routes.
Qed.

Lemma voice_resolution_order_witness :
  voice_to_use (self english_runtime) (Some "system_0"%string) = "system_0"%string
  /\ voice_to_use (self english_runtime) (Some "studio"%string) = "gtts_pt"%string
  /\ voice_to_use (self english_runtime) None = "gtts_en"%string
  /\ voice_to_use (self (with_current_voice "studio" (studio_runtime true true))) None
     = "gtts_pt"%string
  /\ synthesize_text (studio_world true true) (py "hello") (Some "studio"%string)
       (Some "out/a.wav"%string) 22050 english_runtime
     = dispatch (studio_world true true) (py "hello") gtts_pt_voice "out/a.wav" 22050
         (at_dispatch (studio_world true true) "out/a.wav" english_runtime).
Proof.
  destruct (voice_resolution_order english_runtime (Some "system_0"%string))
    as (Hpresent & _).
  destruct (voice_resolution_order english_runtime (Some "studio"%string))
    as (_ & Habsent & _ & _ & Hroute).
  destruct (voice_resolution_order english_runtime None) as (_ & _ & Hcurrent & _).
  destruct (voice_resolution_order (with_current_voice "studio" (studio_runtime true true))
              None) as (_ & _ & _ & Hfallback & _).
  split; [|split; [|split; [|split]]].
  - apply (Hpresent "system_0"%string); [reflexivity|discriminate|].
    exists (system_voice_entry 0 {| sv_id := "voices/maria"; sv_name := Some "Maria" |}).
    reflexivity.
  - apply (Habsent "studio"%string); [reflexivity|discriminate|reflexivity].
  - apply Hcurrent; [left; reflexivity|]. exists gtts_en_voice. reflexivity.
  - apply Hfallback; [left; reflexivity|reflexivity].
  - apply Hroute; [discriminate|discriminate|reflexivity|reflexivity].
Defined.

(** C1 as stated fails: with ["gtts_en"] as the current voice, present in
    the registry, the explicit identifier ["studio"], which the registry
    lacks, should go to the current voice; the code serves it with
    ["gtts_pt"], and the one network call of the run asks for ["pt"]. *)
Lemma absent_explicit_voice_counterexample :
  available_voices (self english_runtime) !! "studio"%string = None
  /\ available_voices (self english_runtime) !! current_voice (self english_runtime)
     = Some gtts_en_voice
  /\ described_voice_to_use (self english_runtime) (Some "studio"%string)
     = current_voice (self english_runtime)
  /\ voice_to_use (self english_runtime) (Some "studio"%string) = "gtts_pt"%string
  /\ voice_to_use (self english_runtime) (Some "studio"%string)
     <> described_voice_to_use (self english_runtime) (Some "studio"%string)
  /\ List.filter is_gtts_call
       (trace (snd (synthesize_text (studio_world true true) (py "hello")
                      (Some "studio"%string) (Some "out/a.wav"%string) 22050
                      english_runtime)))
     = [EvGTTS (py "hello") "pt"].
Proof.
  repeat split; try (vm_compute; reflexivity).
  vm_compute. discriminate.
Qed.

(* ================================================================== *)
(** * Further properties of the code *)

(** ** The shape of preprocessed text *)

Section PreprocessShape.

Variable unicode_isalnum : codepoint -> bool.

Lemma length_lstrip s : (length (lstrip s) <= length s)%nat.
Proof.
  induction s as [|c r IH]; simpl; [lia|].
  destruct (is_space c); simpl; lia.
Qed.

Lemma length_rstrip s : (length (rstrip s) <= length s)%nat.
Proof.
  induction s as [|c r IH]; [simpl; lia|].
  rewrite rstrip_cons. revert IH.
  destruct (rstrip r); [destruct (is_space c)|]; simpl; intros IH; lia.
Qed.

Lemma length_sub_spaces_from b s : (length (sub_spaces_from b s) <= length s)%nat.
Proof.
  revert b. induction s as [|c r IH]; intros b; simpl; [lia|].
  pose proof (IH true). pose proof (IH false).
  destruct (is_space c); [destruct b|]; simpl; lia.
Qed.

Lemma length_filter_le {A} (f : A -> bool) l : (length (List.filter f l) <= length l)%nat.
Proof.
  induction l as [|x l IH]; simpl; [lia|]. destruct (f x); simpl; lia.
Qed.

Lemma rstrip_no_space s : no_space s = true -> rstrip s = s.
Proof.
  unfold no_space. induction s as [|c r IH]; [reflexivity|].
  simpl forallb. intros [Hc Hr]%andb_prop. apply negb_true_iff in Hc.
  rewrite rstrip_cons, (IH Hr), Hc. destruct r; reflexivity.
Qed.

Lemma rstrip_app a b : rstrip b <> [] -> rstrip (a ++ b) = a ++ rstrip b.
Proof.
  intros Hb. induction a as [|c a IH]; [reflexivity|].
  rewrite <- app_comm_cons, rstrip_cons, IH.
  destruct (a ++ rstrip b) eqn:E; [|rewrite <- E; reflexivity].
  apply app_eq_nil in E. tauto.
Qed.

Lemma join_proper_not_nil w ws : proper_word w -> join (w :: ws) <> [].
Proof.
  intros [Hne _]. cbn [join]. destruct w; [discriminate|]. discriminate.
Qed.

Lemma rstrip_join ws : Forall proper_word ws -> rstrip (join ws) = join ws.
Proof.
  induction 1 as [|w ws Hw Hws IH]; [reflexivity|].
  destruct Hw as [Hne Hns]. cbn [join].
  destruct ws as [|w' ws'].
  - rewrite app_nil_r. apply rstrip_no_space, Hns.
  - assert (Hrest : rstrip (32 :: join (w' :: ws')) = 32 :: join (w' :: ws')).
    { rewrite rstrip_cons, IH.
      destruct (join (w' :: ws')) eqn:E; [|reflexivity].
      exfalso. inversion Hws; subst. eapply join_proper_not_nil; eauto. }
    rewrite rstrip_app; rewrite Hrest; [reflexivity|discriminate].
Qed.

Lemma lstrip_join ws : Forall proper_word ws -> lstrip (join ws) = join ws.
Proof.
  intros H. destruct H as [|w ws [Hne Hns] Hws]; [reflexivity|].
  cbn [join]. destruct w as [|c w]; [discriminate|].
  unfold no_space in Hns. simpl in Hns. apply andb_prop in Hns as [Hc _].
  apply negb_true_iff in Hc. simpl. rewrite Hc. reflexivity.
Qed.

Lemma join_words_kept text :
  Forall (fun c => kept unicode_isalnum c = true)
    (join (words (List.filter (kept unicode_isalnum) text))).
Proof.
  apply join_forall; [apply kept_space; reflexivity|].
  unfold words. apply filter_forall, fields_forall, filter_holds.
Qed.

Lemma join_words_spaces s :
  Forall (fun c => is_space c = true -> c = 32) (join (words s)).
Proof.
  apply join_forall; [reflexivity|].
  pose proof (words_proper s) as H.
  induction H as [|w ws [_ Hns] Hws IH]; constructor; [|exact IH].
  unfold no_space in Hns. clear -Hns. induction w as [|c w IHw]; constructor.
  - simpl in Hns. apply andb_prop in Hns as [Hc _]. apply negb_true_iff in Hc.
    intros Hsp. congruence.
  - apply IHw. simpl in Hns. apply andb_prop in Hns as [_ Hw]. exact Hw.
Qed.

(** X1. The text [preprocess_text] returns is never longer than its
    input, holds only allowed characters, has no whitespace at either end,
    no whitespace other than U+0020 and no run of whitespace left. *)
Theorem preprocess_text_result_shape text language :
  (length (preprocess_text unicode_isalnum text language) <= length text)%nat
  /\ Forall (fun c => kept unicode_isalnum c = true)
       (preprocess_text unicode_isalnum text language)
  /\ strip (preprocess_text unicode_isalnum text language)
     = preprocess_text unicode_isalnum text language
  /\ Forall (fun c => is_space c = true -> c = 32)
       (preprocess_text unicode_isalnum text language)
  /\ sub_spaces (preprocess_text unicode_isalnum text language)
     = preprocess_text unicode_isalnum text language.
Proof.
  assert (Hstrip : strip (preprocess_text unicode_isalnum text language)
                   = preprocess_text unicode_isalnum text language).
  { rewrite preprocess_text_described. unfold described_preprocess, strip.
    rewrite lstrip_join, rstrip_join; try apply words_proper. reflexivity. }
  split; [|split; [|split; [|split]]].
  - unfold preprocess_text, sub_spaces, strip, sub_disallowed.
    pose proof (length_sub_spaces_from false
                  (rstrip (lstrip (List.filter (kept unicode_isalnum) text)))).
    pose proof (length_rstrip (lstrip (List.filter (kept unicode_isalnum) text))).
    pose proof (length_lstrip (List.filter (kept unicode_isalnum) text)).
    pose proof (length_filter_le (kept unicode_isalnum) text). lia.
  - rewrite preprocess_text_described. apply join_words_kept.
  - exact Hstrip.
  - rewrite preprocess_text_described. apply join_words_spaces.
  - rewrite <- Hstrip at 1. rewrite sub_spaces_strip.
    rewrite preprocess_text_described. unfold described_preprocess.
    rewrite words_join; [reflexivity|apply words_proper].
Qed.

Lemma filter_all_space text :
  forallb (fun c => negb (kept unicode_isalnum c) || is_space c) text = true ->
  all_space (List.filter (kept unicode_isalnum) text) = true.
Proof.
  unfold all_space. induction text as [|c r IH]; simpl; [reflexivity|].
  intros [Hc Hr]%andb_prop. destruct (kept unicode_isalnum c); simpl in *; [|auto].
  rewrite Hc. auto.
Qed.

Lemma filter_not_all_space text :
  forallb (fun c => negb (kept unicode_isalnum c) || is_space c) text = false ->
  all_space (List.filter (kept unicode_isalnum) text) = false.
Proof.
  unfold all_space. induction text as [|c r IH]; simpl; [discriminate|].
  destruct (kept unicode_isalnum c); simpl.
  - destruct (is_space c); simpl; auto.
  - auto.
Qed.

(** X2. [preprocess_text] returns the empty string exactly when every
    character of the text is disallowed or whitespace; [synthesize_text]
    on such a result, as the request handler calls it, raises
    [ValueError] before any external call and leaves the object as it
    is. *)
Theorem blank_after_preprocessing_is_rejected w text language voice_id output_path
    sample_rate rt :
  (preprocess_text unicode_isalnum text language = []
   <-> forallb (fun c => negb (kept unicode_isalnum c) || is_space c) text = true)
  /\ (forallb (fun c => negb (kept unicode_isalnum c) || is_space c) text = true ->
      synthesize_text w (preprocess_text unicode_isalnum text language) voice_id
        output_path sample_rate rt
      = (Raised (ValueError "Texto não pode estar vazio"), rt)).
Proof.
  assert (Hblank : forallb (fun c => negb (kept unicode_isalnum c) || is_space c) text = true
                   -> preprocess_text unicode_isalnum text language = []).
  { intros H. rewrite preprocess_text_described. unfold described_preprocess.
    rewrite (words_all_space _ (filter_all_space _ H)). reflexivity. }
  split; [split; [|exact Hblank]|].
  - intros Hnil.
    destruct (forallb _ text) eqn:E; [reflexivity|].
    apply filter_not_all_space in E.
    rewrite preprocess_text_described in Hnil. unfold described_preprocess in Hnil.
    pose proof (words_proper (List.filter (kept unicode_isalnum) text)) as Hp.
    destruct (words (List.filter (kept unicode_isalnum) text)) as [|w0 ws] eqn:Ew.
    + apply words_nil_all_space in Ew. congruence.
    + inversion Hp; subst. exfalso. eapply join_proper_not_nil; eauto.
  - intros H. rewrite (Hblank H). reflexivity.
Qed.

End PreprocessShape.

Lemma blank_after_preprocessing_is_rejected_witness :
  synthesize_text (studio_world true true)
    (preprocess_text (fun _ => false) (py "  @@ ## $$ ") "pt") None None 22050
    (studio_runtime true true)
  = (Raised (ValueError "Texto não pode estar vazio"), studio_runtime true true).
Proof.
  apply (blank_after_preprocessing_is_rejected (fun _ => false) (studio_world true true)
           (py "  @@ ## $$ ") "pt"%string None None 22050 (studio_runtime true true)).
  reflexivity.
Defined.

(** ** Loudness after volume normalisation *)

Section Loudness.

Local Open Scope R_scope.

Lemma elements_array_map f y : elements (array_map f y) = map f (elements y).
Proof.
  destruct y as [l|rows]; simpl; [reflexivity|].
  induction rows as [|r rows IH]; simpl; [reflexivity|].
  rewrite IH, map_app. reflexivity.
Qed.

Lemma Rsum_squares_scaled k l :
  Rsum (map (fun x => x * x) (map (fun x => x * k) l))
  = k * k * Rsum (map (fun x => x * x) l).
Proof.
  induction l as [|x l IH]; simpl; [lra|]. rewrite IH. lra.
Qed.

Lemma Rsum_squares_nonneg l : 0 <= Rsum (map (fun x => x * x) l).
Proof.
  induction l as [|x l IH]; simpl; [lra|]. pose proof (Rle_0_sqr x) as Hx.
  unfold Rsqr in Hx. lra.
Qed.

Lemma mean_square_nonneg y : 0 <= mean_square y.
Proof.
  unfold mean_square, Rdiv. apply Rmult_le_pos; [apply Rsum_squares_nonneg|].
  destruct (length (elements y)) as [|n] eqn:E.
  - simpl. rewrite Rinv_0. lra.
  - left. apply Rinv_0_lt_compat. apply lt_0_INR. lia.
Qed.

Lemma current_rms_scaled k y :
  0 <= k -> current_rms (array_map (fun x => x * k) y) = k * current_rms y.
Proof.
  intros Hk. unfold current_rms, mean_square.
  rewrite elements_array_map, Rsum_squares_scaled, length_map.
  replace (k * k * Rsum (map (fun x => x * x) (elements y)) / INR (length (elements y)))
    with (k * k * mean_square y) by (unfold mean_square, Rdiv; ring).
  rewrite sqrt_mult_alt by (apply Rmult_le_pos; assumption).
  rewrite sqrt_square by assumption. reflexivity.
Qed.

(** X3. Audio of positive RMS leaves volume normalisation with RMS
    min(0.7, 3 * RMS): exactly the target 0.7 when the input RMS is at
    least 0.7 / 3, and three times the input RMS below that. *)
Theorem volume_normalized_loudness y :
  0 < current_rms y ->
  current_rms (volume_normalized y) = Rmin (7 / 10) (3 * current_rms y).
Proof.
  intros Hpos. unfold volume_normalized.
  destruct (Rlt_dec 0 (current_rms y)) as [_|Hn]; [|contradiction].
  assert (Hk : 0 <= scaling_factor (current_rms y)).
  { unfold scaling_factor, target_rms. apply Rmin_glb; [|lra].
    apply Rmult_le_pos; [lra|]. left. apply Rinv_0_lt_compat, Hpos. }
  rewrite (current_rms_scaled _ _ Hk).
  unfold scaling_factor, target_rms, Rmin.
  assert (Hdiv : 7 / 10 / current_rms y * current_rms y = 7 / 10) by (field; lra).
  destruct (Rle_dec (7 / 10 / current_rms y) 3) as [Hle|Hgt];
    destruct (Rle_dec (7 / 10) (3 * current_rms y)) as [Hle'|Hgt']; try lra.
  - exfalso. apply Hgt'. rewrite <- Hdiv.
    apply Rmult_le_compat_r; lra.
  - exfalso. apply Hgt. apply Rmult_le_reg_r with (r := current_rms y); [exact Hpos|].
    rewrite Hdiv. exact Hle'.
Qed.

Lemma volume_normalized_loudness_witness :
  current_rms (volume_normalized (Arr1 [1 / 100])) = Rmin (7 / 10) (3 * current_rms (Arr1 [1 / 100])).
Proof.
  apply volume_normalized_loudness. rewrite current_rms_single; lra.
Defined.

End Loudness.

(** ** More runs of [normalize_audio] and [validate_audio_format] *)

Section MoreAudioRuns.

Variable w : World.
Local Open Scope R_scope.

Lemma clip1_in_range x : -1 <= x <= 1 -> clip1 (-1) 1 x = x.
Proof.
  intros [Hlo Hhi]. unfold clip1. rewrite Rmax_left by exact Hlo. apply Rmin_left, Hhi.
Qed.

Lemma map_clip_in_range l : Forall (fun x => -1 <= x <= 1) l -> map (clip1 (-1) 1) l = l.
Proof.
  induction 1 as [|x l Hx Hl IH]; simpl; [reflexivity|].
  rewrite (clip1_in_range x Hx), IH. reflexivity.
Qed.

(** X4. Mono audio that is already at the target rate and within
    [-1, 1], normalised without volume normalisation, is written sample
    for sample as it was read. *)
Theorem normalize_audio_canonical_unchanged input output l sr h :
  AUDIO_LIBS_AVAILABLE w = true ->
  librosa_load w h (SrcPath input) false = Ok (Arr1 l, sr) ->
  Forall (fun x => -1 <= x <= 1) l ->
  mkdir w (EvLoad (SrcPath input) false :: h) (parent output) = Ok tt ->
  sf_write w (EvMkdir (parent output) :: EvLoad (SrcPath input) false :: h)
    output (Arr1 l) sr = Ok tt ->
  normalize_audio w input output (Some sr) 1 false h
  = (Ok true,
     EvSfWrite output (Arr1 l) sr :: EvMkdir (parent output)
       :: EvLoad (SrcPath input) false :: h).
Proof.
  intros Hlibs Hload Hrange Hmk Hwr.
  unfold normalize_audio. rewrite Hlibs. simpl.
  unfold try_except, normalize_steps, bind, call, ret. simpl.
  rewrite Hload. simpl. rewrite Z.eqb_refl. simpl.
  unfold convert_channels, np_clip. simpl.
  rewrite (map_clip_in_range l Hrange), Hmk. simpl. rewrite Hwr. reflexivity.
Qed.







(** X6. [normalize_audio] never raises. When decoding raises it returns
    [False] after that one call, and when resampling raises after those
    two: no directory is made and nothing is written. *)
Theorem normalize_audio_fails_closed input output target_sr target_channels
    normalize_volume h :
  (exists b, fst (normalize_audio w input output target_sr target_channels
                    normalize_volume h) = Ok b)
  /\ (forall e,
        AUDIO_LIBS_AVAILABLE w = true ->
        librosa_load w h (SrcPath input) false = Raised e ->
        normalize_audio w input output target_sr target_channels normalize_volume h
        = (Ok false, EvLoad (SrcPath input) false :: h))
  /\ (forall y sr e,
        AUDIO_LIBS_AVAILABLE w = true ->
        librosa_load w h (SrcPath input) false = Ok (y, sr) ->
        sr <> effective_sr w target_sr ->
        resample_array w (convert_channels y target_channels) sr (effective_sr w target_sr)
        = Raised e ->
        normalize_audio w input output target_sr target_channels normalize_volume h
        = (Ok false,
           EvResample (convert_channels y target_channels) sr (effective_sr w target_sr)
             :: EvLoad (SrcPath input) false :: h)).
Proof.
  split; [|split].
  - unfold normalize_audio.
    destruct (AUDIO_LIBS_AVAILABLE w); simpl; [|eexists; reflexivity].
    unfold try_except.
    destruct (normalize_steps w input output (effective_sr w target_sr) target_channels
                normalize_volume h) as [[b|e] h']; eexists; reflexivity.
  - intros e Hlibs Hload. unfold normalize_audio. rewrite Hlibs. simpl.
    unfold try_except, normalize_steps, bind, call, ret. simpl.
    rewrite Hload. reflexivity.
  - intros y sr e Hlibs Hload Hsr Hres. unfold normalize_audio. rewrite Hlibs. simpl.
    unfold try_except, normalize_steps, bind, call, ret. simpl.
    rewrite Hload. simpl. apply Z.eqb_neq in Hsr. rewrite Hsr. simpl.
    rewrite Hres. reflexivity.
Qed.

(** X7. Without the codec libraries, once [exists()] has answered,
    [validate_audio_format] accepts a file exactly when it exists and its
    extension, in lower case, is [.wav], [.mp3] or [.flac]; the file is
    never opened. *)
Theorem validate_audio_format_degraded file_path h present :
  AUDIO_LIBS_AVAILABLE w = false ->
  pathlib_exists w h file_path = Ok present ->
  validate_audio_format w file_path h
  = (Ok (present && str_in (lower (suffix file_path)) [".wav"; ".mp3"; ".flac"]%string),
     EvPathExists file_path :: h).
Proof.
  intros Hlibs Hex. unfold validate_audio_format, bind, call, ret. simpl.
  rewrite Hex. simpl. destruct present; simpl; [|reflexivity].
  change SUPPORTED_INPUT_FORMATS with [".wav"; ".mp3"; ".flac"]%string.
  destruct (str_in _ _); simpl; [|reflexivity].
  rewrite Hlibs. reflexivity.
Qed.

End MoreAudioRuns.

Lemma normalize_audio_canonical_unchanged_witness :
  normalize_audio (world_with_samples true (Arr1 [1 / 2; -1; 0]%R)) "in/a.wav" "out/a.wav"
    (Some 16000) 1 false []
  = (Ok true,
     [EvSfWrite "out/a.wav" (Arr1 [1 / 2; -1; 0]%R) 16000; EvMkdir "out";
      EvLoad (SrcPath "in/a.wav") false]).
Proof.
  apply (normalize_audio_canonical_unchanged (world_with_samples true (Arr1 [1 / 2; -1; 0]%R))
           "in/a.wav"%string "out/a.wav"%string [1 / 2; -1; 0]%R 16000 []);
    try reflexivity.
  repeat constructor; lra.
Defined.


Lemma normalize_audio_fails_closed_witness :
  normalize_audio
    (steady_world true (Ok (0, 16000)) (Raised (ExternalError "librosa" "no backend"))
       true true true None)
    "in/a.wav" "out/a.wav" None 1 true []
  = (Ok false, [EvLoad (SrcPath "in/a.wav") false]).
Proof.
  destruct (normalize_audio_fails_closed
              (steady_world true (Ok (0, 16000))
                 (Raised (ExternalError "librosa" "no backend")) true true true None)
              "in/a.wav"%string "out/a.wav"%string None 1 true []) as (_ & Hload & _).
  eapply Hload; reflexivity.
Defined.

Lemma validate_audio_format_degraded_witness :
  validate_audio_format (world_with_samples false (Arr1 [])) "voices/sample.MP3" []
  = (Ok true, [EvPathExists "voices/sample.MP3"]).
Proof.
  apply (validate_audio_format_degraded (world_with_samples false (Arr1 []))
           "voices/sample.MP3"%string [] true); reflexivity.
Defined.

(** ** The object over its life *)

Section ObjectLife.

Variable w : World.

Lemma dispatch_keeps_self text voice_info output_path sample_rate :
  keeps self (dispatch w text voice_info output_path sample_rate).
Proof.
  unfold dispatch. apply keeps_try; [|intros; apply keeps_raise].
  destruct (String.eqb (engine voice_info) "gtts").
  - intros rt. apply synthesize_gtts_calls.
  - unfold _synthesize_pyttsx3. apply keeps_try.
    + apply offline_attempt_keeps. reflexivity.
    + intros e rt. apply synthesize_gtts_calls.
Qed.

Lemma fresh_output_path_keeps {X} (f : Runtime -> X) :
  (forall ev rt, is_gtts_call ev = false -> is_engine_call ev = false ->
                 f (record ev rt) = f rt) ->
  keeps f (fresh_output_path w).
Proof.
  intros Hf. unfold fresh_output_path.
  apply keeps_bind; [apply keeps_call; intros; apply Hf; reflexivity|].
  intros ts. apply keeps_bind; [apply keeps_call; intros; apply Hf; reflexivity|].
  intros rid. apply keeps_ret.
Qed.

(** What [synthesize_text] keeps when the dispatch for the resolved voice
    keeps it. *)
Lemma synthesize_text_keeps {X} (f : Runtime -> X) text voice_id output_path sample_rate rt :
  (forall ev r, is_gtts_call ev = false -> is_engine_call ev = false ->
                f (record ev r) = f r) ->
  (forall voice_info out,
      available_voices (self rt) !! voice_to_use (self rt) voice_id = Some voice_info ->
      keeps f (dispatch w text voice_info out sample_rate)) ->
  f (snd (synthesize_text w text voice_id output_path sample_rate rt)) = f rt.
Proof.
  intros Hf Hd. unfold synthesize_text.
  destruct (strip text); [reflexivity|].
  unfold bind at 1. unfold get_self at 1. cbn [fst snd].
  destruct (available_voices (self rt) !! voice_to_use (self rt) voice_id)
    as [voice_info|] eqn:Hreg; [|reflexivity].
  apply keeps_bind.
  - destruct (truthy output_path); [apply keeps_ret|apply fresh_output_path_keeps, Hf].
  - intros out. apply keeps_bind; [apply keeps_call; intros; apply Hf; reflexivity|].
    intros _. apply Hd. reflexivity.
Qed.

Lemma set_voice_self voice_id rt :
  self (snd (set_voice w voice_id rt))
  = match available_voices (self rt) !! voice_id with
    | Some _ => set_current_voice voice_id (self rt)
    | None => self rt
    end.
Proof.
  unfold set_voice, bind, get_self, update_self. simpl.
  destruct (available_voices (self rt) !! voice_id) as [voice_info|]; [|reflexivity].
  simpl. destruct (system_voice voice_info) as [voice|]; simpl; [|reflexivity].
  destruct (String.eqb (engine voice_info) "pyttsx3"); simpl; [|reflexivity].
  unfold try_except, set_engine_voice, engine_call, bind, get_self, call, raise, ret. simpl.
  destruct (pyttsx3_engine (self rt)); simpl; [|reflexivity].
  destruct (setProperty w _ _ _); reflexivity.
Qed.

Lemma synthesize_text_keeps_self text voice_id output_path sample_rate rt :
  self (snd (synthesize_text w text voice_id output_path sample_rate rt)) = self rt.
Proof.
  apply (synthesize_text_keeps self); [reflexivity|].
  intros. apply dispatch_keeps_self.
Qed.

(** X8. [synthesize_text] never changes the object: registry, current
    voice and engine handle are after the call what they were before,
    whether it returns or raises. [set_voice] never changes the registry
    or the engine handle. *)
Theorem methods_keep_the_registry rt :
  (forall text voice_id output_path sample_rate,
      self (snd (synthesize_text w text voice_id output_path sample_rate rt)) = self rt)
  /\ (forall voice_id,
        available_voices (self (snd (set_voice w voice_id rt))) = available_voices (self rt)
        /\ pyttsx3_engine (self (snd (set_voice w voice_id rt))) = pyttsx3_engine (self rt)).
Proof.
  split.
  - intros. apply synthesize_text_keeps_self.
  - intros voice_id. rewrite set_voice_self.
    destruct (available_voices (self rt) !! voice_id); split; reflexivity.
Qed.

Lemma new_synthesizer_object h :
  available_voices (self (snd (new_synthesizer w h))) !! "gtts_pt"%string = Some gtts_pt_voice
  /\ current_voice (self (snd (new_synthesizer w h))) = "default"%string.
Proof.
  unfold new_synthesizer, _initialize_engines, start_engines, try_except, bind,
    engine_call, call, update_self, get_self, bind. simpl.
  destruct (pyttsx3_init w h); simpl; [|split; reflexivity].
  destruct (setProperty w _ "rate"%string _); simpl; [|split; reflexivity].
  destruct (setProperty w _ "volume"%string _); simpl; [|split; reflexivity].
  destruct (getProperty_voices w _) as [voices|e]; simpl; [|split; reflexivity].
  split; [|reflexivity].
  rewrite add_system_voices_keeps_gtts_pt. reflexivity.
Qed.

Lemma reachable_invariant rt :
  reachable w rt ->
  available_voices (self rt) !! "gtts_pt"%string = Some gtts_pt_voice
  /\ (current_voice (self rt) = "default"%string
      \/ is_Some (available_voices (self rt) !! current_voice (self rt))).
Proof.
  induction 1 as [h|rt voice_id Hr [IHreg IHcur]
                  |rt text voice_id output_path sample_rate Hr IH|rt ev Hr IH].
  - destruct (new_synthesizer_object h) as [Hreg Hcur]. split; [exact Hreg|left; exact Hcur].
  - rewrite set_voice_self.
    destruct (available_voices (self rt) !! voice_id) as [vi|] eqn:E; simpl.
    + split; [exact IHreg|]. right. exists vi. exact E.
    + split; assumption.
  - rewrite synthesize_text_keeps_self. exact IH.
  - exact IH.
Qed.

End ObjectLife.

(** ** The registry the constructor builds *)

Section Registry.

Lemma to_uint_not_nil n : Nat.to_uint n <> Decimal.Nil.
Proof.
  rewrite <- (DecimalNat.Unsigned.of_to n) at 1.
  rewrite DecimalNat.Unsigned.to_of. unfold Decimal.unorm.
  destruct (Decimal.nzhead (Nat.to_uint n)); discriminate.
Qed.

Lemma string_of_nat_inj i j : string_of_nat i = string_of_nat j -> i = j.
Proof.
  unfold string_of_nat. intros H.
  apply DecimalNat.Unsigned.to_uint_inj.
  pose proof (NilZero.usu _ (to_uint_not_nil i)) as Hi.
  pose proof (NilZero.usu _ (to_uint_not_nil j)) as Hj.
  rewrite H in Hi. congruence.
Qed.

Lemma system_voice_id_inj i j : system_voice_id i = system_voice_id j -> i = j.
Proof.
  unfold system_voice_id. simpl. intros [= H]. apply string_of_nat_inj, H.
Qed.

Lemma add_system_voices_other voices : forall i registry k,
  (forall j, (i <= j)%nat -> k <> system_voice_id j) ->
  add_system_voices i voices registry !! k = registry !! k.
Proof.
  induction voices as [|voice rest IH]; intros i registry k Hk; simpl; [reflexivity|].
  rewrite IH by (intros j Hj; apply Hk; lia).
  apply lookup_insert_ne. intros Heq. apply (Hk i); [lia|]. symmetry. exact Heq.
Qed.

Lemma add_system_voices_entry voices : forall i registry j voice,
  nth_error voices j = Some voice ->
  add_system_voices i voices registry !! system_voice_id (i + j)
  = Some (system_voice_entry (i + j) voice).
Proof.
  induction voices as [|v rest IH]; intros i registry j voice Hnth.
  - destruct j; discriminate.
  - destruct j as [|j]; simpl in Hnth.
    + injection Hnth as ->. rewrite Nat.add_0_r. simpl.
      rewrite add_system_voices_other.
      * apply lookup_insert_eq.
      * intros j Hj Heq. apply system_voice_id_inj in Heq. lia.
    + simpl. replace (i + S j)%nat with (S i + j)%nat by lia.
      apply IH. exact Hnth.
Qed.

Lemma add_system_voices_size voices : forall i registry,
  (forall j, (i <= j)%nat -> registry !! system_voice_id j = None) ->
  size (add_system_voices i voices registry) = (length voices + size registry)%nat.
Proof.
  induction voices as [|v rest IH]; intros i registry Hfree; simpl; [reflexivity|].
  rewrite IH.
  - rewrite map_size_insert_None by (apply Hfree; lia). lia.
  - intros j Hj. rewrite lookup_insert_ne.
    + apply Hfree. lia.
    + intros Heq. apply system_voice_id_inj in Heq. lia.
Qed.

Lemma system_voice_id_not_default j :
  "default"%string <> system_voice_id j
  /\ "gtts_pt"%string <> system_voice_id j
  /\ "gtts_en"%string <> system_voice_id j.
Proof. unfold system_voice_id. simpl. repeat split; discriminate. Qed.

Lemma builtin_voices_free j : builtin_voices !! system_voice_id j = None.
Proof.
  destruct (system_voice_id_not_default j) as (Hd & Hp & He).
  unfold builtin_voices.
  rewrite !lookup_insert_ne by assumption. apply lookup_empty.
Qed.

Lemma builtin_voices_size : size builtin_voices = 3%nat.
Proof.
  unfold builtin_voices.
  rewrite !map_size_insert_None; [rewrite map_size_empty; reflexivity|..];
    try reflexivity.
Qed.

(** X9. When the engines start and enumerate [voices], the registry holds
    the three built-in voices and, for every index [i], the [i]-th system
    voice under its own key ["system_<i>"]: no entry overwrites another,
    so the registry has 3 + len(voices) entries. *)
Theorem system_voices_get_their_own_entries voices :
  (forall i voice,
      nth_error voices i = Some voice ->
      add_system_voices 0 voices builtin_voices !! system_voice_id i
      = Some (system_voice_entry i voice))
  /\ add_system_voices 0 voices builtin_voices !! "default"%string = Some default_voice
  /\ add_system_voices 0 voices builtin_voices !! "gtts_pt"%string = Some gtts_pt_voice
  /\ add_system_voices 0 voices builtin_voices !! "gtts_en"%string = Some gtts_en_voice
  /\ size (add_system_voices 0 voices builtin_voices) = (3 + length voices)%nat
  /\ (forall w h,
        (forall h', pyttsx3_init w h' = Ok tt) ->
        (forall h' name v, setProperty w h' name v = Ok tt) ->
        (forall h', getProperty_voices w h' = Ok (Some voices)) ->
        available_voices (self (snd (new_synthesizer w h)))
        = add_system_voices 0 voices builtin_voices).
Proof.
  split; [|split; [|split; [|split; [|split]]]].
  - intros i voice Hnth.
    apply (add_system_voices_entry voices 0 builtin_voices i voice Hnth).
  - rewrite add_system_voices_other; [reflexivity|].
    intros j _. apply system_voice_id_not_default.
  - rewrite add_system_voices_other; [reflexivity|].
    intros j _. apply system_voice_id_not_default.
  - rewrite add_system_voices_other; [reflexivity|].
    intros j _. apply system_voice_id_not_default.
  - rewrite add_system_voices_size, builtin_voices_size; [lia|].
    intros j _. apply builtin_voices_free.
  - intros w h Hinit Hset Hget.
    unfold new_synthesizer, _initialize_engines, start_engines, try_except, bind,
      engine_call, call, update_self, get_self, bind. simpl.
    rewrite Hinit. simpl. rewrite !Hset. simpl. rewrite Hget. reflexivity.
Qed.

Lemma system_voices_get_their_own_entries_witness :
  add_system_voices 0 [{| sv_id := "voices/maria"; sv_name := Some "Maria" |}] builtin_voices
    !! system_voice_id 0
  = Some (system_voice_entry 0 {| sv_id := "voices/maria"; sv_name := Some "Maria" |})
  /\ available_voices (self (snd (new_synthesizer (studio_world true true) [])))
     = add_system_voices 0 [{| sv_id := "voices/maria"; sv_name := Some "Maria" |}]
         builtin_voices.
Proof.
  destruct (system_voices_get_their_own_entries
              [{| sv_id := "voices/maria"; sv_name := Some "Maria" |}])
    as (Hentry & _ & _ & _ & _ & Hnew).
  split.
  - apply (Hentry 0%nat). reflexivity.
  - apply (Hnew (studio_world true true) []); intros; reflexivity.
Defined.

End Registry.

(** ** Routing over the life of the object *)

Section RoutingOverLife.

Variable w : World.

(** X10. For an object built by the constructor and used through
    [set_voice] and [synthesize_text] in any order, the registry always
    holds ["gtts_pt"], so the identifier a request is served with is in
    the registry: the lookup of line 119 cannot miss. *)
Theorem resolved_voice_is_registered rt voice_id :
  reachable w rt ->
  available_voices (self rt) !! "gtts_pt"%string = Some gtts_pt_voice
  /\ is_Some (available_voices (self rt) !! voice_to_use (self rt) voice_id).
Proof.
  intros Hr. destruct (reachable_invariant w rt Hr) as [Hreg _].
  split; [exact Hreg|].
  unfold voice_to_use.
  destruct (available_voices (self rt) !! or_else voice_id (current_voice (self rt)))
    as [vi|] eqn:E.
  - exists vi. exact E.
  - exists gtts_pt_voice. exact Hreg.
Qed.

(** X11. After [set_voice] accepted an identifier, requests without a
    [voice_id] are served with it, also after other syntheses in
    between; after [set_voice] refused one, every request is served as
    before. *)
Theorem selected_voice_serves_later_requests rt voice_id :
  (is_Some (available_voices (self rt) !! voice_id) ->
   voice_to_use (self (snd (set_voice w voice_id rt))) None = voice_id
   /\ (forall text v output_path sample_rate,
         voice_to_use
           (self (snd (synthesize_text w text v output_path sample_rate
                         (snd (set_voice w voice_id rt))))) None
         = voice_id))
  /\ (available_voices (self rt) !! voice_id = None ->
      forall v, voice_to_use (self (snd (set_voice w voice_id rt))) v
                = voice_to_use (self rt) v).
Proof.
  split.
  - intros [vi Hvi].
    assert (Hsel : voice_to_use (self (snd (set_voice w voice_id rt))) None = voice_id).
    { rewrite set_voice_self, Hvi. unfold voice_to_use. simpl. rewrite Hvi. reflexivity. }
    split; [exact Hsel|].
    intros. rewrite synthesize_text_keeps_self. exact Hsel.
  - intros Hnone v. rewrite set_voice_self, Hnone. reflexivity.
Qed.

Lemma network_only_lookup k voice_info :
  network_only_voices !! k = Some voice_info ->
  k = "gtts_pt"%string /\ voice_info = gtts_pt_voice.
Proof.
  unfold network_only_voices. intros H.
  apply lookup_insert_Some in H as [[<- <-]|[_ H]]; [split; reflexivity|].
  rewrite lookup_empty in H. discriminate.
Qed.

(** X12. When starting the engines raises, at whatever step, the
    constructor leaves a registry with the one entry ["gtts_pt"]; from
    then on every request, whatever its [voice_id], is served with
    ["gtts_pt"], and a synthesis makes no call to the offline engine. *)
Theorem failed_start_serves_network_only h e :
  fst (start_engines w (blank_runtime h)) = Raised e ->
  available_voices (self (snd (new_synthesizer w h))) = network_only_voices
  /\ (forall voice_id,
        voice_to_use (self (snd (new_synthesizer w h))) voice_id = "gtts_pt"%string)
  /\ (forall rt text voice_id output_path sample_rate,
        self rt = self (snd (new_synthesizer w h)) ->
        engine_calls (trace (snd (synthesize_text w text voice_id output_path
                                    sample_rate rt)))
        = engine_calls (trace rt)).
Proof.
  intros Hfail.
  assert (Hreg : available_voices (self (snd (new_synthesizer w h))) = network_only_voices).
  { unfold new_synthesizer, _initialize_engines, try_except.
    change {| self := {| pyttsx3_engine := None; available_voices := ∅;
                         current_voice := "default" |}; trace := h |}
      with (blank_runtime h).
    destruct (start_engines w (blank_runtime h)) as [[u|e'] rt']; [discriminate|].
    reflexivity. }
  split; [exact Hreg|]. split.
  - intros voice_id. unfold voice_to_use. rewrite Hreg.
    destruct (network_only_voices !! or_else voice_id _) as [vi|] eqn:E; [|reflexivity].
    apply network_only_lookup in E as [-> _]. reflexivity.
  - intros rt text voice_id output_path sample_rate Hself.
    apply (synthesize_text_keeps w engine_count).
    + intros; apply engine_count_record; assumption.
    + intros voice_info out Hvi. rewrite Hself, Hreg in Hvi.
      apply network_only_lookup in Hvi as [_ ->].
      unfold dispatch. apply keeps_try; [|intros; apply keeps_raise].
      simpl. intros r. apply synthesize_gtts_calls.
Qed.

End RoutingOverLife.

Lemma resolved_voice_is_registered_witness :
  available_voices
    (self (snd (synthesize_text (studio_world true true) (py "hello") None None 22050
                  (snd (set_voice (studio_world true true) "gtts_en"
                          (snd (new_synthesizer (studio_world true true) [])))))))
    !! "gtts_pt"%string = Some gtts_pt_voice.
Proof.
  apply (resolved_voice_is_registered (studio_world true true) _ None).
  apply reach_synthesize, reach_set_voice, reach_new.
Defined.

Lemma selected_voice_serves_later_requests_witness :
  voice_to_use (self (snd (set_voice (studio_world true true) "gtts_en"
                             (studio_runtime true true)))) None = "gtts_en"%string
  /\ voice_to_use (self (snd (set_voice (studio_world true true) "nonexistent-id"
                                (studio_runtime true true)))) None
     = voice_to_use (self (studio_runtime true true)) None.
Proof.
  destruct (selected_voice_serves_later_requests (studio_world true true)
              (studio_runtime true true) "gtts_en"%string) as (Hok & _).
  destruct (selected_voice_serves_later_requests (studio_world true true)
              (studio_runtime true true) "nonexistent-id"%string) as (_ & Hrefused).
  split.
  - apply Hok. exists gtts_en_voice. reflexivity.
  - apply Hrefused. reflexivity.
Defined.

Lemma failed_start_serves_network_only_witness :
  voice_to_use
    (self (snd (new_synthesizer
                  (steady_world true (Ok (0, 16000)) (Ok (Arr1 [], 22050)) false true true None)
                  [])))
    (Some "default"%string)
  = "gtts_pt"%string.
Proof.
  destruct (failed_start_serves_network_only
              (steady_world true (Ok (0, 16000)) (Ok (Arr1 [], 22050)) false true true None)
              [] (ExternalError "pyttsx3" "no driver") eq_refl) as (_ & Hroute & _).
  apply Hroute.
Defined.

(** ** What a successful synthesis has done *)

Section Success.

Variable w : World.

Lemma bind_ok {St A B} (m : M St A) (k : A -> M St B) s b s2 :
  bind m k s = (Ok b, s2) ->
  exists a s1, m s = (Ok a, s1) /\ k a s1 = (Ok b, s2).
Proof.
  unfold bind. destruct (m s) as [[a|e] s1]; [|discriminate].
  intros H. exists a, s1. split; [reflexivity|exact H].
Qed.

Lemma try_ok {St A} (m : M St A) handler s a s2 :
  try_except m handler s = (Ok a, s2) ->
  m s = (Ok a, s2) \/ exists e s1, m s = (Raised e, s1) /\ handler e s1 = (Ok a, s2).
Proof.
  unfold try_except. destruct (m s) as [[a'|e] s1]; intros H.
  - left. exact H.
  - right. exists e, s1. split; [reflexivity|exact H].
Qed.

Lemma load_resample_write_ok src output_path sample_rate rt u rt' :
  load_resample_write w src output_path sample_rate rt = (Ok u, rt') ->
  exists y rest, trace rt' = EvSfWrite output_path y sample_rate :: rest.
Proof.
  unfold load_resample_write. intros H.
  apply bind_ok in H as (loaded & rt1 & _ & H).
  apply bind_ok in H as (audio_data & rt2 & _ & H).
  unfold call in H. injection H as _ <-. simpl. eexists. eexists. reflexivity.
Qed.

Lemma synthesize_gtts_ok text voice_info output_path sample_rate rt p rt' :
  _synthesize_gtts w text voice_info output_path sample_rate rt = (Ok p, rt') ->
  p = output_path
  /\ exists y rest, trace rt' = EvSfWrite output_path y sample_rate :: rest.
Proof.
  unfold _synthesize_gtts. rewrite try_reraise. intros H.
  apply bind_ok in H as (u & rt1 & _ & H).
  apply bind_ok in H as (buf & rt2 & _ & H).
  apply bind_ok in H as (u' & rt3 & Hlrw & H).
  unfold ret in H. injection H as <- <-.
  split; [reflexivity|]. eapply load_resample_write_ok; eauto.
Qed.

Lemma offline_attempt_ok text voice_info output_path sample_rate rt p rt' :
  offline_attempt w text voice_info output_path sample_rate rt = (Ok p, rt') ->
  p = output_path
  /\ exists y rest,
       trace rt'
       = EvRemove (str_replace ".wav" "_temp.wav" output_path)
           :: EvSfWrite output_path y sample_rate :: rest.
Proof.
  unfold offline_attempt. intros H.
  apply bind_ok in H as (u0 & rt0 & _ & H).
  apply bind_ok in H as (u1 & rt1 & _ & H).
  apply bind_ok in H as (u2 & rt2 & _ & H).
  apply bind_ok in H as (present & rt3 & _ & H).
  destruct (negb present); [discriminate|].
  apply bind_ok in H as (u4 & rt4 & Hlrw & H).
  apply bind_ok in H as (u5 & rt5 & Hrm & H).
  unfold ret in H. injection H as <- <-.
  split; [reflexivity|].
  destruct (load_resample_write_ok _ _ _ _ _ _ Hlrw) as (y & rest & Htrace).
  exists y, rest.
  unfold try_except, call, ret in Hrm. simpl in Hrm.
  destruct (os_remove w (trace rt4) _); injection Hrm as _ <-; simpl;
    rewrite Htrace; reflexivity.
Qed.

Lemma dispatch_ok text voice_info output_path sample_rate rt p rt' :
  dispatch w text voice_info output_path sample_rate rt = (Ok p, rt') ->
  p = output_path /\ last_write (trace rt') = Some (output_path, sample_rate).
Proof.
  unfold dispatch. rewrite try_reraise.
  destruct (String.eqb (engine voice_info) "gtts").
  - intros H. apply synthesize_gtts_ok in H as (-> & y & rest & ->).
    split; reflexivity.
  - unfold _synthesize_pyttsx3. intros H.
    apply try_ok in H as [H|(e & rt1 & _ & H)].
    + apply offline_attempt_ok in H as (-> & y & rest & ->). split; reflexivity.
    + apply synthesize_gtts_ok in H as (-> & y & rest & ->). split; reflexivity.
Qed.

(** X13. When [synthesize_text] returns a path, the newest [sf.write] of
    the history wrote that path at the requested sample rate; the path is
    the caller's [output_path] when one was given, and otherwise the
    generated [tts_<timestamp>_<first 8 characters of the uuid>.wav]
    under [OUTPUT_DIR]. *)
Theorem synthesize_text_wrote_returned_path text voice_id output_path sample_rate rt p rt' :
  synthesize_text w text voice_id output_path sample_rate rt = (Ok p, rt') ->
  last_write (trace rt') = Some (p, sample_rate)
  /\ (forall out, truthy output_path = Some out -> p = out)
  /\ (truthy output_path = None ->
      p = path_join w (OUTPUT_DIR (config w))
            (String.append "tts_"
               (String.append (string_of_Z (time_time w (trace rt)))
                  (String.append "_"
                     (String.append (substring 0 8 (uuid4 w (EvTime :: trace rt)))
                        ".wav"))))).
Proof.
  unfold synthesize_text. destruct (strip text); [discriminate|].
  intros H. apply bind_ok in H as (s & rt0 & Hs & H).
  unfold get_self in Hs. injection Hs as <- <-.
  destruct (available_voices (self rt) !! voice_to_use (self rt) voice_id)
    as [voice_info|]; [|discriminate].
  apply bind_ok in H as (out & rt1 & Hout & H).
  apply bind_ok in H as (u & rt2 & _ & H).
  apply dispatch_ok in H as [-> Hlast].
  split; [exact Hlast|]. split.
  - intros out' Ht. rewrite Ht in Hout. unfold ret in Hout. congruence.
  - intros Ht. rewrite Ht in Hout. unfold fresh_output_path, bind, call, ret in Hout.
    simpl in Hout. injection Hout as <- _. reflexivity.
Qed.

Lemma str_replace_absent old new s : occurs old s = false -> str_replace old new s = s.
Proof.
  unfold str_replace. induction s as [|a r IH]; [reflexivity|].
  cbn [occurs replace_from]. intros [Hp Hr]%orb_false_elim.
  rewrite Hp, (IH Hr). reflexivity.
Qed.

(** X14. When the offline attempt succeeds, its last two external calls
    are the [sf.write] of the output path and the [os.remove] of the
    temporary path. For an output path in which [.wav] does not occur,
    [replace] leaves the path as it is, so the path removed is the output
    path that was just written and returned. *)
Theorem offline_output_without_wav_is_removed text voice_info output_path sample_rate
    rt p rt' :
  offline_attempt w text voice_info output_path sample_rate rt = (Ok p, rt') ->
  p = output_path
  /\ (exists y rest,
        trace rt'
        = EvRemove (str_replace ".wav" "_temp.wav" output_path)
            :: EvSfWrite output_path y sample_rate :: rest)
  /\ (occurs ".wav" output_path = false ->
      exists y rest,
        trace rt' = EvRemove p :: EvSfWrite p y sample_rate :: rest).
Proof.
  intros H. apply offline_attempt_ok in H as (-> & y & rest & Htrace).
  split; [reflexivity|]. split; [exists y, rest; exact Htrace|].
  intros Habsent. exists y, rest.
  rewrite Htrace, (str_replace_absent _ _ _ Habsent). reflexivity.
Qed.

End Success.

Lemma synthesize_text_wrote_returned_path_witness :
  last_write (trace (snd (synthesize_text (studio_world true true) (py "hello") None None
                            22050 (studio_runtime true true))))
  = Some ("outputs/tts_1700000000_0f8fad5b.wav"%string, 22050).
Proof.
  destruct (synthesize_text (studio_world true true) (py "hello") None None 22050
              (studio_runtime true true)) as [r rt'] eqn:Hrun.
  assert (Hr : r = Ok "outputs/tts_1700000000_0f8fad5b.wav"%string).
  { change r with (fst (r, rt')). rewrite <- Hrun. vm_compute. reflexivity. }
  subst r.
  exact (proj1 (synthesize_text_wrote_returned_path (studio_world true true) _ _ _ _ _ _ _
                  Hrun)).
Defined.

Lemma offline_output_without_wav_is_removed_witness :
  exists y rest,
    trace (snd (offline_attempt (studio_world true true) (py "hello") default_voice
                  "out/a.mp3" 22050 (studio_runtime true true)))
    = EvRemove "out/a.mp3" :: EvSfWrite "out/a.mp3" y 22050 :: rest.
Proof.
  destruct (offline_attempt (studio_world true true) (py "hello") default_voice
              "out/a.mp3" 22050 (studio_runtime true true)) as [r rt'] eqn:Hrun.
  assert (Hr : r = Ok "out/a.mp3"%string).
  { change r with (fst (r, rt')). rewrite <- Hrun. vm_compute. reflexivity. }
  subst r.
  destruct (offline_output_without_wav_is_removed (studio_world true true) _ _ _ _ _ _ _
              Hrun) as (_ & _ & Hgone).
  exact (Hgone eq_refl).
Defined.

(** ** Best-effort cleanup, and the shared instance *)

Section Cleanup.

Variable w : World.
Variable f : history -> string -> result unit.

Lemma bind_ext {St A B} (m1 m2 : M St A) (k1 k2 : A -> M St B) s :
  m1 s = m2 s -> (forall a s', k1 a s' = k2 a s') -> bind m1 k1 s = bind m2 k2 s.
Proof.
  intros Hm Hk. unfold bind. rewrite Hm.
  destruct (m2 s) as [[a|e] s']; [apply Hk|reflexivity].
Qed.

Lemma swallowed_remove (oracle : history -> result unit) temp_path (rt : Runtime) :
  try_except (call (EvRemove temp_path) oracle) (fun _ => ret tt) rt
  = (Ok tt, record (EvRemove temp_path) rt).
Proof.
  unfold try_except, call, ret. destruct (oracle (past rt)) as [[]|e]; reflexivity.
Qed.

Lemma offline_attempt_remove_indep text voice_info output_path sample_rate rt :
  offline_attempt (with_os_remove f w) text voice_info output_path sample_rate rt
  = offline_attempt w text voice_info output_path sample_rate rt.
Proof.
  unfold offline_attempt.
  apply bind_ext; [reflexivity|]. intros _ rt0.
  apply bind_ext; [reflexivity|]. intros _ rt1.
  apply bind_ext; [reflexivity|]. intros _ rt2.
  apply bind_ext; [reflexivity|]. intros present rt3.
  destruct (negb present); [reflexivity|].
  apply bind_ext; [reflexivity|]. intros _ rt4.
  apply bind_ext; [|reflexivity].
  etransitivity; [apply swallowed_remove|]. symmetry. apply swallowed_remove.
Qed.

(** X15. Deleting the temporary file is best effort: what the offline
    path does, returns or raises, and the history it leaves, are the same
    whatever [os.remove] answers. *)
Theorem temp_file_cleanup_is_best_effort text voice_info output_path sample_rate rt :
  offline_attempt (with_os_remove f w) text voice_info output_path sample_rate rt
  = offline_attempt w text voice_info output_path sample_rate rt
  /\ _synthesize_pyttsx3 (with_os_remove f w) text voice_info output_path sample_rate rt
     = _synthesize_pyttsx3 w text voice_info output_path sample_rate rt.
Proof.
  split; [apply offline_attempt_remove_indep|].
  unfold _synthesize_pyttsx3, try_except. rewrite offline_attempt_remove_indep.
  reflexivity.
Qed.

End Cleanup.

Section SharedInstance.

Variable w : World.

Lemma new_synthesizer_returns h :
  fst (new_synthesizer w h) = Ok tt
  /\ (init_calls (trace (snd (new_synthesizer w h))) = S (init_calls h)).
Proof.
  unfold new_synthesizer, _initialize_engines, start_engines, try_except, bind,
    engine_call, call, update_self, get_self, bind. simpl.
  destruct (pyttsx3_init w h); simpl; [|split; reflexivity].
  destruct (setProperty w _ "rate"%string _); simpl; [|split; reflexivity].
  destruct (setProperty w _ "volume"%string _); simpl; [|split; reflexivity].
  destruct (getProperty_voices w _) as [voices|e]; simpl; split; reflexivity.
Qed.

Lemma get_synthesizer_run p :
  exists s,
    get_synthesizer w p
    = (Ok s, {| _synthesizer_instance := Some s;
                journal := match _synthesizer_instance p with
                           | Some _ => journal p
                           | None => trace (snd (new_synthesizer w (journal p)))
                           end |}).
Proof.
  unfold get_synthesizer. destruct p as [[s|] j]; simpl.
  - exists s. reflexivity.
  - destruct (new_synthesizer_returns j) as [Hret _].
    destruct (new_synthesizer w j) as [[[]|e] rt]; simpl in *; [|discriminate].
    exists (self rt). reflexivity.
Qed.

Lemma get_synthesizer_times_created n s j :
  get_synthesizer_times w n {| _synthesizer_instance := Some s; journal := j |}
  = {| _synthesizer_instance := Some s; journal := j |}.
Proof.
  induction n as [|n IH]; [reflexivity|]. simpl. exact IH.
Qed.

(** X16. [get_synthesizer] never raises and builds the object at most
    once: a second call returns the same object without any external
    call, so however often it is called [pyttsx3.init()] runs at most
    once more. The object is shared: a voice selected through one
    reference is the current voice of the object a later call returns. *)
Theorem get_synthesizer_is_a_singleton p :
  (exists s, fst (get_synthesizer w p) = Ok s)
  /\ get_synthesizer w (snd (get_synthesizer w p))
     = (fst (get_synthesizer w p), snd (get_synthesizer w p))
  /\ (forall n,
        (init_calls (journal (get_synthesizer_times w n p)) <= S (init_calls (journal p)))%nat)
  /\ (forall s voice_id,
        fst (get_synthesizer w p) = Ok s ->
        is_Some (available_voices s !! voice_id) ->
        exists s',
          fst (get_synthesizer w (snd (on_synthesizer w (set_voice w voice_id) p))) = Ok s'
          /\ current_voice s' = voice_id).
Proof.
  destruct (get_synthesizer_run p) as [s0 Hrun].
  split; [|split; [|split]].
  - exists s0. rewrite Hrun. reflexivity.
  - rewrite Hrun. reflexivity.
  - intros [|n]; [simpl; lia|].
    cbn [get_synthesizer_times]. rewrite Hrun. cbn [snd].
    rewrite get_synthesizer_times_created. cbn [journal].
    destruct (_synthesizer_instance p); [lia|].
    destruct (new_synthesizer_returns (journal p)) as [_ Hcount]. lia.
  - intros s voice_id Hs Hv. rewrite Hrun in Hs. injection Hs as ->.
    unfold on_synthesizer. rewrite Hrun.
    destruct (set_voice w voice_id _) as [r rt] eqn:Hset. simpl.
    exists (self rt). split; [reflexivity|].
    change rt with (snd (r, rt)). rewrite <- Hset, set_voice_self. simpl.
    destruct Hv as [vi Hvi]. rewrite Hvi. reflexivity.
Qed.

End SharedInstance.

Lemma get_synthesizer_is_a_singleton_witness :
  exists s',
    fst (get_synthesizer (studio_world true true)
           (snd (on_synthesizer (studio_world true true)
                   (set_voice (studio_world true true) "gtts_en")
                   {| _synthesizer_instance := None; journal := [] |}))) = Ok s'
    /\ current_voice s' = "gtts_en"%string.
Proof.
  destruct (get_synthesizer_is_a_singleton (studio_world true true)
              {| _synthesizer_instance := None; journal := [] |}) as (_ & _ & _ & Hshared).
  apply (Hshared (self (studio_runtime true true))); [reflexivity|].
  exists gtts_en_voice. reflexivity.
Defined.

(** ** [get_audio_info] *)

Section Inspecting.

Variable w : World.
Variable probe : Probe.

Lemma get_audio_info_present file_path s present1 present2 :
  pathlib_exists w (seen s) file_path = Ok present1 ->
  pathlib_exists w (EvPathExists file_path :: seen s) file_path = Ok present2 ->
  pathlib_exists w (EvPathExists file_path :: EvPathExists file_path :: seen s) file_path
  = Ok true ->
  get_audio_info w probe file_path s
  = match path_stat probe (after_exists_checks file_path (seen s)) file_path with
    | Raised e =>
        (Raised e, {| seen := after_exists_checks file_path (seen s);
                      stats := file_path :: stats s |})
    | Ok st =>
        let info :=
          <["modified_time" := VNum (snd st)]>
            (<["file_size" := VInt (fst st)]>
               (basic_info file_path present1 present2)) in
        if negb (AUDIO_LIBS_AVAILABLE w)
        then (Ok info, {| seen := after_exists_checks file_path (seen s);
                          stats := file_path :: stats s |})
        else
          try_except (detailed_info w probe file_path info)
            (fun e => ret (<["error" := VStr (exn_str e)]> info))
            {| seen := after_exists_checks file_path (seen s);
               stats := file_path :: stats s |}
    end.
Proof.
  intros H1 H2 H3. unfold get_audio_info, path_exists_now, stat_now, bind, call, ret.
  cbn [past record inspection_traced seen stats]. rewrite H1.
  cbn [past record inspection_traced seen stats]. rewrite H2.
  cbn [past record inspection_traced seen stats]. rewrite H3. cbn [negb].
  unfold after_exists_checks.
  destruct (path_stat probe _ file_path) as [st|e]; [|reflexivity].
  cbn [seen stats]. destruct (negb (AUDIO_LIBS_AVAILABLE w)); reflexivity.
Qed.

(** What [get_audio_info] raises was raised by one of its three calls of
    [exists()] or by [stat()], the four calls made outside the [try]. *)
Lemma get_audio_info_raised file_path s e :
  fst (get_audio_info w probe file_path s) = Raised e ->
  pathlib_exists w (seen s) file_path = Raised e
  \/ pathlib_exists w (EvPathExists file_path :: seen s) file_path = Raised e
  \/ pathlib_exists w (EvPathExists file_path :: EvPathExists file_path :: seen s) file_path
     = Raised e
  \/ (pathlib_exists w (EvPathExists file_path :: EvPathExists file_path :: seen s)
        file_path = Ok true
      /\ path_stat probe (after_exists_checks file_path (seen s)) file_path = Raised e).
Proof.
  intros Hraise.
  destruct (pathlib_exists w (seen s) file_path) as [present1|e1] eqn:H1.
  2:{ left. unfold get_audio_info, path_exists_now, bind, call in Hraise.
      cbn [past record inspection_traced seen stats] in Hraise.
      rewrite H1 in Hraise. simpl in Hraise. congruence. }
  destruct (pathlib_exists w (EvPathExists file_path :: seen s) file_path)
    as [present2|e2] eqn:H2.
  2:{ right. left. unfold get_audio_info, path_exists_now, bind, call in Hraise.
      cbn [past record inspection_traced seen stats] in Hraise.
      rewrite H1 in Hraise. cbn [past record inspection_traced seen stats] in Hraise.
      rewrite H2 in Hraise. simpl in Hraise. congruence. }
  destruct (pathlib_exists w (EvPathExists file_path :: EvPathExists file_path :: seen s)
              file_path) as [present3|e3] eqn:H3.
  2:{ right. right. left. unfold get_audio_info, path_exists_now, bind, call in Hraise.
      cbn [past record inspection_traced seen stats] in Hraise.
      rewrite H1 in Hraise. cbn [past record inspection_traced seen stats] in Hraise.
      rewrite H2 in Hraise. cbn [past record inspection_traced seen stats] in Hraise.
      rewrite H3 in Hraise. simpl in Hraise. congruence. }
  right. right. right. destruct present3.
  - split; [reflexivity|].
    rewrite (get_audio_info_present _ _ _ _ H1 H2 H3) in Hraise.
    destruct (path_stat probe _ file_path) as [st|e']; [|simpl in Hraise; congruence].
    exfalso. cbv zeta in Hraise.
    destruct (negb (AUDIO_LIBS_AVAILABLE w)); [discriminate|].
    unfold try_except in Hraise.
    destruct (detailed_info w probe file_path _ _) as [[info|e'] s']; discriminate.
  - exfalso. unfold get_audio_info, path_exists_now, bind, call, ret in Hraise.
    cbn [past record inspection_traced seen stats] in Hraise.
    rewrite H1 in Hraise. cbn [past record inspection_traced seen stats] in Hraise.
    rewrite H2 in Hraise. cbn [past record inspection_traced seen stats] in Hraise.
    rewrite H3 in Hraise. discriminate.
Qed.

(** X17. For a file that [exists()] reports missing [get_audio_info]
    returns exactly the four basic entries, with [exists] false,
    [file_size] 0 and [format] None, after asking three times whether the
    file exists: no [stat()], no decoding. *)
Theorem get_audio_info_missing_file file_path s :
  (forall h, pathlib_exists w h file_path = Ok false) ->
  get_audio_info w probe file_path s
  = (Ok (basic_info file_path false false),
     {| seen := after_exists_checks file_path (seen s); stats := stats s |})
  /\ basic_info file_path false false !! "file_path"%string = Some (VStr file_path)
  /\ basic_info file_path false false !! "file_size"%string = Some (VInt 0)
  /\ basic_info file_path false false !! "exists"%string = Some (VBool false)
  /\ basic_info file_path false false !! "format"%string = Some VNone
  /\ size (basic_info file_path false false) = 4%nat.
Proof.
  intros Hmissing. split; [|repeat split; reflexivity].
  unfold get_audio_info, path_exists_now, bind, call, ret.
  cbn [past record inspection_traced seen stats]. rewrite !Hmissing. reflexivity.
Qed.

(** X18. [get_audio_info] raises only what one of its three calls of
    [exists()] or its call of [stat()] raises, the calls made outside the
    [try]; an exception of [exists()] leaves the function at that call,
    before [stat()] and before any decoding. Every exception of the
    decoding ends in the dictionary: when the three calls of [exists()]
    and [stat()] have answered and opening the file raises, or its rate
    is zero, the result has an [error] entry with the text of the
    exception, keeps the size and modification time read by [stat()],
    and has no [duration]. *)
Theorem get_audio_info_captures_errors file_path s :
  (forall e,
      fst (get_audio_info w probe file_path s) = Raised e ->
      pathlib_exists w (seen s) file_path = Raised e
      \/ pathlib_exists w (EvPathExists file_path :: seen s) file_path = Raised e
      \/ pathlib_exists w (EvPathExists file_path :: EvPathExists file_path :: seen s)
           file_path = Raised e
      \/ (pathlib_exists w (EvPathExists file_path :: EvPathExists file_path :: seen s)
            file_path = Ok true
          /\ path_stat probe (after_exists_checks file_path (seen s)) file_path = Raised e))
  /\ (forall e,
        pathlib_exists w (seen s) file_path = Raised e ->
        get_audio_info w probe file_path s
        = (Raised e, {| seen := EvPathExists file_path :: seen s; stats := stats s |}))
  /\ (forall present1 present2 st e,
        pathlib_exists w (seen s) file_path = Ok present1 ->
        pathlib_exists w (EvPathExists file_path :: seen s) file_path = Ok present2 ->
        pathlib_exists w (EvPathExists file_path :: EvPathExists file_path :: seen s)
          file_path = Ok true ->
        path_stat probe (after_exists_checks file_path (seen s)) file_path = Ok st ->
        AUDIO_LIBS_AVAILABLE w = true ->
        (sf_SoundFile w (after_exists_checks file_path (seen s)) file_path = Raised e
         \/ (exists frames,
               sf_SoundFile w (after_exists_checks file_path (seen s)) file_path
               = Ok (frames, 0)
               /\ e = ZeroDivisionError)) ->
        exists info,
          fst (get_audio_info w probe file_path s) = Ok info
          /\ info !! "error"%string = Some (VStr (exn_str e))
          /\ info !! "file_size"%string = Some (VInt (fst st))
          /\ info !! "modified_time"%string = Some (VNum (snd st))
          /\ info !! "duration"%string = None).
Proof.
  split; [|split].
  - intros e. apply get_audio_info_raised.
  - intros e H1. unfold get_audio_info, path_exists_now, bind, call.
    cbn [past record inspection_traced seen stats]. rewrite H1. reflexivity.
  - intros present1 present2 st e H1 H2 H3 Hstat Hlibs Hopen.
    rewrite (get_audio_info_present _ _ _ _ H1 H2 H3), Hstat, Hlibs. cbv zeta. cbn [negb].
    eexists. split.
    + unfold try_except, detailed_info, bind, call, raise, ret.
      cbn [past record inspection_traced seen stats].
      destruct Hopen as [Hopen|(frames & Hopen & ->)]; rewrite Hopen; reflexivity.
    + repeat split; reflexivity.
Qed.

(** X19. The secondary analysis fails on its own: when the calls of
    [exists()] and [stat()] have answered and the file opens but
    [librosa.load] or one of the two features raises, the result still
    has [duration], [sample_rate], [channels] and [frames], and has
    neither an [error] nor an [rms_energy] entry. When all succeed, the
    [rms_energy] entry is the RMS that volume normalisation computes. *)
Theorem get_audio_info_partial_failure file_path s present1 present2 st frames samplerate :
  pathlib_exists w (seen s) file_path = Ok present1 ->
  pathlib_exists w (EvPathExists file_path :: seen s) file_path = Ok present2 ->
  pathlib_exists w (EvPathExists file_path :: EvPathExists file_path :: seen s) file_path
  = Ok true ->
  path_stat probe (after_exists_checks file_path (seen s)) file_path = Ok st ->
  AUDIO_LIBS_AVAILABLE w = true ->
  sf_SoundFile w (after_exists_checks file_path (seen s)) file_path
  = Ok (frames, samplerate) ->
  samplerate <> 0 ->
  (exists info,
      fst (get_audio_info w probe file_path s) = Ok info
      /\ info !! "duration"%string = Some (VNum (inject_Z frames / inject_Z samplerate))
      /\ info !! "sample_rate"%string = Some (VInt samplerate)
      /\ info !! "channels"%string = Some (VInt (sf_channels probe file_path))
      /\ info !! "frames"%string = Some (VInt frames)
      /\ info !! "error"%string = None
      /\ match librosa_load w (EvSoundFile file_path :: after_exists_checks file_path (seen s))
                 (SrcPath file_path) true with
         | Raised _ => info !! "rms_energy"%string = None
         | Ok (y, sr) =>
             match zero_crossing_rate_mean probe y, spectral_centroid_mean probe y sr with
             | Ok zcr, Ok centroid =>
                 info !! "rms_energy"%string = Some (VFloat (current_rms y))
                 /\ info !! "zero_crossing_rate"%string = Some (VFloat zcr)
                 /\ info !! "spectral_centroid"%string = Some (VFloat centroid)
             | _, _ => info !! "rms_energy"%string = None
             end
         end).
Proof.
  intros H1 H2 H3 Hstat Hlibs Hopen Hsr.
  rewrite (get_audio_info_present _ _ _ _ H1 H2 H3), Hstat, Hlibs. cbv zeta. cbn [negb].
  unfold try_except at 1. unfold detailed_info, bind at 1, call at 1.
  cbn [past record inspection_traced seen stats]. rewrite Hopen. cbn [fst snd].
  apply Z.eqb_neq in Hsr. rewrite Hsr.
  unfold try_except, advanced_analysis, bind, call, lift_result, ret.
  cbn [past record inspection_traced seen stats].
  destruct (librosa_load w _ (SrcPath file_path) true) as [[y sr]|e]; cbn [fst snd].
  - destruct (zero_crossing_rate_mean probe y) as [zcr|e1].
    + destruct (spectral_centroid_mean probe y sr) as [centroid|e2];
        eexists; (split; [reflexivity|]); repeat split; reflexivity.
    + eexists; (split; [reflexivity|]); repeat split; reflexivity.
  - eexists; (split; [reflexivity|]); repeat split; reflexivity.
Qed.

End Inspecting.

Lemma get_audio_info_missing_file_witness :
  get_audio_info (with_pathlib_exists (fun _ _ => Ok false) (world_with_file 60)) steady_probe
    "voices/gone.wav" new_inspection
  = (Ok (basic_info "voices/gone.wav" false false),
     {| seen := after_exists_checks "voices/gone.wav" []; stats := [] |}).
Proof.
  apply (get_audio_info_missing_file
           (with_pathlib_exists (fun _ _ => Ok false) (world_with_file 60)) steady_probe
           "voices/gone.wav"%string new_inspection).
  reflexivity.
Defined.

Lemma get_audio_info_captures_errors_witness :
  get_audio_info (unreadable_world "/proc/1/root/x.wav") steady_probe
    "/proc/1/root/x.wav" new_inspection
  = (Raised (ExternalError "PermissionError" "[Errno 13] Permission denied"),
     {| seen := [EvPathExists "/proc/1/root/x.wav"]; stats := [] |})
  /\ exists info,
       fst (get_audio_info
              (steady_world true (Raised (ExternalError "soundfile" "bad header"))
                 (Ok (Arr1 [], 16000)) true true true None)
              steady_probe "voices/sample.wav" new_inspection) = Ok info
       /\ info !! "error"%string = Some (VStr "bad header")
       /\ info !! "file_size"%string = Some (VInt 48044)
       /\ info !! "modified_time"%string = Some (VNum (1700000000 # 1))
       /\ info !! "duration"%string = None.
Proof.
  split.
  - destruct (get_audio_info_captures_errors (unreadable_world "/proc/1/root/x.wav")
                steady_probe "/proc/1/root/x.wav"%string new_inspection)
      as (_ & Hraised & _).
    apply (Hraised (ExternalError "PermissionError" "[Errno 13] Permission denied")).
    reflexivity.
  - destruct (get_audio_info_captures_errors
                (steady_world true (Raised (ExternalError "soundfile" "bad header"))
                   (Ok (Arr1 [], 16000)) true true true None)
                steady_probe "voices/sample.wav"%string new_inspection)
      as (_ & _ & Hcaught).
    apply (Hcaught true true (48044, 1700000000 # 1)
             (ExternalError "soundfile" "bad header"));
      try reflexivity.
    left. reflexivity.
Defined.

Lemma get_audio_info_partial_failure_witness :
  exists info,
    fst (get_audio_info
           (steady_world true (Ok (960000, 16000))
              (Raised (ExternalError "librosa" "no backend")) true true true None)
           steady_probe "voices/sample.wav" new_inspection) = Ok info
    /\ info !! "duration"%string = Some (VNum (inject_Z 960000 / inject_Z 16000))
    /\ info !! "error"%string = None
    /\ info !! "rms_energy"%string = None.
Proof.
  destruct (get_audio_info_partial_failure
              (steady_world true (Ok (960000, 16000))
                 (Raised (ExternalError "librosa" "no backend")) true true true None)
              steady_probe "voices/sample.wav"%string new_inspection true true
              (48044, 1700000000 # 1) 960000 16000 eq_refl eq_refl eq_refl eq_refl
              eq_refl eq_refl)
    as (info & Hret & Hdur & _ & _ & _ & Herr & Hrms); [discriminate|].
  exists info. repeat split; assumption.
Defined.

(** ** [prepare_audio_for_tts] *)

Section Preparing.

Variable w : World.

Lemma normalize_audio_returns input output target_sr target_channels normalize_volume h :
  exists b, fst (normalize_audio w input output target_sr target_channels
                   normalize_volume h) = Ok b.
Proof.
  unfold normalize_audio.
  destruct (AUDIO_LIBS_AVAILABLE w); simpl; [|eexists; reflexivity].
  unfold try_except.
  destruct (normalize_steps w input output (effective_sr w target_sr) target_channels
              normalize_volume h) as [[b|e] h']; eexists; reflexivity.
Qed.

Lemma normalize_audio_mono_written input output target_sr normalize_volume h :
  fst (normalize_audio w input output target_sr 1 normalize_volume h) = Ok true ->
  exists samples,
    head (snd (normalize_audio w input output target_sr 1 normalize_volume h))
    = Some (EvSfWrite output (Arr1 samples) (effective_sr w target_sr))
    /\ Forall (fun x => (-1 <= x <= 1)%R) samples.
Proof.
  intros Hok.
  destruct (normalize_audio_success w _ _ _ _ _ _ Hok)
    as (y0 & sr0 & y1 & rest & _ & _ & Hy1 & Htrace).
  assert (Hmono : exists l, y1 = Arr1 l).
  { destruct (convert_to_mono_is_mono y0) as [l Hl].
    destruct (sr0 =? effective_sr w target_sr)%Z.
    - exists l. congruence.
    - rewrite Hl in Hy1. eapply resample_array_mono; eauto. }
  destruct Hmono as [l ->].
  assert (Hpre : exists l', (if normalize_volume then volume_normalized (Arr1 l) else Arr1 l)
                            = Arr1 l').
  { destruct normalize_volume; [apply volume_normalized_mono|eexists; reflexivity]. }
  destruct Hpre as [l' Hl']. rewrite Hl' in Htrace.
  exists (map (clip1 (-1) 1) l'). rewrite Htrace. split; [reflexivity|].
  clear. induction l' as [|x l' IH]; simpl; constructor; [apply clip1_range|exact IH].
Qed.

Lemma prepare_audio_for_tts_run file_path output_dir h :
  prepare_audio_for_tts w file_path output_dir h
  = match validate_audio_format w file_path h with
    | (Ok true, h1) =>
        match normalize_audio w file_path (processed_path w file_path output_dir)
                None 1 true h1 with
        | (Ok true, h2) => (Ok (Some (processed_path w file_path output_dir)), h2)
        | (Ok false, h2) => (Ok None, h2)
        | (Raised e, h2) => (Raised e, h2)
        end
    | (Ok false, h1) => (Ok None, h1)
    | (Raised e, h1) => (Raised e, h1)
    end.
Proof.
  unfold prepare_audio_for_tts, bind, ret.
  destruct (validate_audio_format w file_path h) as [[[|]|e] h1]; try reflexivity.
  simpl. destruct (normalize_audio w _ _ _ _ _ h1) as [[[|]|e] h2]; reflexivity.
Qed.

(** X20. [prepare_audio_for_tts] raises only what the existence check
    of validation raises: once [exists()] has answered it returns a path
    or [None], and an exception of [exists()] leaves it at that call. A
    path it returns is [processed_<stem>.wav] under the output directory;
    validation had accepted the input, and the last external call wrote
    that path as one channel at the configured sample rate with every
    sample in [-1, 1]. *)
Theorem prepare_audio_for_tts_result file_path output_dir h :
  (forall present,
      pathlib_exists w h file_path = Ok present ->
      exists r, fst (prepare_audio_for_tts w file_path output_dir h) = Ok r)
  /\ (forall e,
        pathlib_exists w h file_path = Raised e ->
        prepare_audio_for_tts w file_path output_dir h
        = (Raised e, EvPathExists file_path :: h))
  /\ (forall p,
        fst (prepare_audio_for_tts w file_path output_dir h) = Ok (Some p) ->
        p = path_join w output_dir
              (String.append "processed_" (String.append (stem file_path) ".wav"))
        /\ fst (validate_audio_format w file_path h) = Ok true
        /\ exists samples,
             head (snd (prepare_audio_for_tts w file_path output_dir h))
             = Some (EvSfWrite p (Arr1 samples) (AUDIO_SAMPLE_RATE (config w)))
             /\ Forall (fun x => (-1 <= x <= 1)%R) samples).
Proof.
  rewrite prepare_audio_for_tts_run.
  destruct (normalize_audio_returns file_path (processed_path w file_path output_dir)
              None 1 true (snd (validate_audio_format w file_path h))) as [b Hb].
  pose proof (normalize_audio_mono_written file_path
                (processed_path w file_path output_dir) None true
                (snd (validate_audio_format w file_path h))) as Hmono.
  split; [|split].
  - intros present Hex.
    destruct (validate_audio_format_returns w file_path h present Hex) as [v Hv].
    destruct (validate_audio_format w file_path h) as [r h1]. simpl in Hv, Hb. subst r.
    destruct v; [|eexists; reflexivity].
    destruct (normalize_audio w file_path (processed_path w file_path output_dir)
                None 1 true h1) as [r h2]. simpl in Hb. subst r.
    destruct b; eexists; reflexivity.
  - intros e Hex. rewrite (validate_audio_format_raises w file_path h e Hex). reflexivity.
  - destruct (validate_audio_format w file_path h) as [[[|]|e] h1];
      [|discriminate|discriminate].
    cbn [snd] in Hb, Hmono.
    destruct (normalize_audio w file_path (processed_path w file_path output_dir)
                None 1 true h1) as [r h2]. simpl in Hb. subst r.
    destruct b; [|discriminate].
    intros p [= <-]. split; [reflexivity|]. split; [reflexivity|].
    apply Hmono. reflexivity.
Qed.

(** X21. Without the codec libraries, once [exists()] has answered,
    [prepare_audio_for_tts] returns [None] for every input after the one
    existence check: validation may accept the file by its extension, but
    normalisation refuses. When validation rejects the input, with or
    without the libraries, the result is [None] and nothing is decoded
    for normalisation: the history is the one validation left. *)
Theorem prepare_audio_for_tts_refuses file_path output_dir h :
  (AUDIO_LIBS_AVAILABLE w = false ->
   forall present,
     pathlib_exists w h file_path = Ok present ->
     prepare_audio_for_tts w file_path output_dir h = (Ok None, EvPathExists file_path :: h))
  /\ (fst (validate_audio_format w file_path h) = Ok false ->
      prepare_audio_for_tts w file_path output_dir h
      = (Ok None, snd (validate_audio_format w file_path h))).
Proof.
  split.
  - intros Hlibs present Hex. rewrite prepare_audio_for_tts_run.
    unfold validate_audio_format, bind, call, ret. simpl. rewrite Hex. simpl.
    destruct present; simpl; [|reflexivity].
    destruct (str_in _ _); simpl; [|reflexivity].
    rewrite Hlibs. simpl. unfold normalize_audio. rewrite Hlibs. reflexivity.
  - intros Hrej. rewrite prepare_audio_for_tts_run.
    destruct (validate_audio_format w file_path h) as [r h1]. simpl in Hrej. subst r.
    reflexivity.
Qed.

End Preparing.

Lemma prepare_audio_for_tts_result_witness :
  (exists r,
      fst (prepare_audio_for_tts
             (steady_world true (Ok (960000, 16000)) (Ok (Arr1 [2; 0]%R, 16000))
                true true true None)
             "voices/sample.wav" "data" []) = Ok r)
  /\ prepare_audio_for_tts (unreadable_world "/proc/1/root/x.wav")
       "/proc/1/root/x.wav" "data" []
     = (Raised (ExternalError "PermissionError" "[Errno 13] Permission denied"),
        [EvPathExists "/proc/1/root/x.wav"])
  /\ exists samples,
       head (snd (prepare_audio_for_tts
                    (steady_world true (Ok (960000, 16000)) (Ok (Arr1 [2; 0]%R, 16000))
                       true true true None)
                    "voices/sample.wav" "data" []))
       = Some (EvSfWrite "data/processed_sample.wav" (Arr1 samples) 16000)
       /\ Forall (fun x => (-1 <= x <= 1)%R) samples.
Proof.
  split; [|split].
  - destruct (prepare_audio_for_tts_result
                (steady_world true (Ok (960000, 16000)) (Ok (Arr1 [2; 0]%R, 16000))
                   true true true None)
                "voices/sample.wav"%string "data"%string []) as (Hreturns & _).
    apply (Hreturns true). reflexivity.
  - destruct (prepare_audio_for_tts_result (unreadable_world "/proc/1/root/x.wav")
                "/proc/1/root/x.wav"%string "data"%string []) as (_ & Hraises & _).
    apply Hraises. reflexivity.
  - destruct (prepare_audio_for_tts_result
                (steady_world true (Ok (960000, 16000)) (Ok (Arr1 [2; 0]%R, 16000))
                   true true true None)
                "voices/sample.wav"%string "data"%string []) as (_ & _ & Hsome).
    destruct (Hsome "data/processed_sample.wav"%string eq_refl) as (_ & _ & Hwritten).
    exact Hwritten.
Defined.

Lemma prepare_audio_for_tts_refuses_witness :
  prepare_audio_for_tts (world_with_samples false (Arr1 [])) "voices/sample.wav" "data" []
  = (Ok None, [EvPathExists "voices/sample.wav"]).
Proof.
  destruct (prepare_audio_for_tts_refuses (world_with_samples false (Arr1 []))
              "voices/sample.wav"%string "data"%string []) as (Hdegraded & _).
  apply (Hdegraded eq_refl true). reflexivity.
Defined.

(** ** Bounds, double failure, and a second volume normalisation *)

Section Edges.

Variable w : World.

(** X22. Both duration bounds are inclusive: a file that [exists()]
    reports present and that decodes to a whole number of seconds is
    accepted exactly when
    MIN_AUDIO_DURATION <= seconds <= MAX_AUDIO_DURATION, so files of
    exactly 30 s and of exactly 300 s pass under the defaults. *)
Theorem validate_audio_format_bounds_inclusive file_path secs samplerate h :
  pathlib_exists w h file_path = Ok true ->
  str_in (lower (suffix file_path)) [".wav"; ".mp3"; ".flac"]%string = true ->
  AUDIO_LIBS_AVAILABLE w = true ->
  0 < samplerate ->
  sf_SoundFile w (EvPathExists file_path :: h) file_path = Ok (secs * samplerate, samplerate) ->
  (fst (validate_audio_format w file_path h) = Ok true
   <-> MIN_AUDIO_DURATION (config w) <= secs <= MAX_AUDIO_DURATION (config w))
  /\ (config w = default_config -> secs = 30 \/ secs = 300 ->
      fst (validate_audio_format w file_path h) = Ok true).
Proof.
  intros Hex Hext Hlibs Hpos Hsf.
  pose proof (validate_whole_seconds w file_path secs samplerate h Hex Hext Hlibs Hpos Hsf)
    as Hrun.
  rewrite Hrun. split.
  - split.
    + intros [= H]. apply andb_prop in H as [H1 H2].
      apply Z.leb_le in H1. apply Z.leb_le in H2. lia.
    + intros [H1 H2]. apply Z.leb_le in H1. apply Z.leb_le in H2.
      rewrite H1, H2. reflexivity.
  - intros Hcfg [-> | ->]; rewrite Hcfg; reflexivity.
Qed.

(** X23. When the offline attempt raises and the network path raises
    too, [synthesize_text]'s dispatch raises the exception of the network
    path; the exception of the offline engine is not the one the caller
    sees. *)
Theorem double_failure_raises_network_error text voice_info output_path sample_rate
    rt e1 rt1 e2 rt2 :
  engine voice_info <> "gtts"%string ->
  offline_attempt w text voice_info output_path sample_rate rt = (Raised e1, rt1) ->
  _synthesize_gtts w text gtts_voice output_path sample_rate rt1 = (Raised e2, rt2) ->
  dispatch w text voice_info output_path sample_rate rt = (Raised e2, rt2).
Proof.
  intros Heng Hoff Hnet. rewrite (dispatch_offline w _ _ _ _ _ Heng), Hoff. exact Hnet.
Qed.

(** X24. When creating the directory of the output path raises,
    [synthesize_text] raises that exception at once: neither engine is
    called and there is no fallback. *)
Theorem makedirs_failure_propagates text voice_id output_path sample_rate rt voice_info e :
  strip text <> [] ->
  output_path <> ""%string ->
  available_voices (self rt) !! voice_to_use (self rt) voice_id = Some voice_info ->
  os_makedirs w (trace rt) (os_path_dirname w output_path) = Raised e ->
  synthesize_text w text voice_id (Some output_path) sample_rate rt
  = (Raised e, at_dispatch w output_path rt).
Proof.
  intros Htext Hout Hreg Hdir. unfold synthesize_text.
  destruct (strip text) as [|c r]; [contradiction|].
  unfold bind at 1. unfold get_self at 1. cbn [fst snd].
  rewrite Hreg. unfold truthy.
  apply String.eqb_neq in Hout. rewrite Hout.
  unfold bind, ret, call. cbn [past record runtime_traced]. rewrite Hdir.
  reflexivity.
Qed.

End Edges.

Section SecondNormalisation.

Local Open Scope R_scope.

Lemma array_map_unit y : array_map (fun x => x * 1) y = y.
Proof.
  assert (Hl : forall l : list R, map (fun x => x * 1) l = l).
  { induction l as [|x l IH]; simpl; [reflexivity|]. rewrite IH, Rmult_1_r. reflexivity. }
  destruct y as [l|rows]; simpl; f_equal; [apply Hl|].
  induction rows as [|r rows IH]; simpl; [reflexivity|]. rewrite Hl, IH. reflexivity.
Qed.

(** X25. Audio whose RMS is at least 0.7 / 3 comes out of volume
    normalisation with RMS 0.7, and normalising its volume a second time
    changes nothing. *)
Theorem volume_normalized_twice y :
  7 / 30 <= current_rms y ->
  current_rms (volume_normalized y) = 7 / 10
  /\ volume_normalized (volume_normalized y) = volume_normalized y.
Proof.
  intros Hloud.
  assert (Hpos : 0 < current_rms y) by lra.
  assert (Hk : 0 <= scaling_factor (current_rms y)).
  { unfold scaling_factor, target_rms. apply Rmin_glb; [|lra].
    apply Rmult_le_pos; [lra|]. left. apply Rinv_0_lt_compat, Hpos. }
  assert (Hfactor : scaling_factor (current_rms y) = 7 / 10 / current_rms y).
  { unfold scaling_factor, target_rms. apply Rmin_left.
    apply Rmult_le_reg_r with (r := current_rms y); [exact Hpos|].
    unfold Rdiv. rewrite Rmult_assoc, Rinv_l; lra. }
  assert (Hrms : current_rms (volume_normalized y) = 7 / 10).
  { unfold volume_normalized.
    destruct (Rlt_dec 0 (current_rms y)) as [_|Hn]; [|contradiction].
    rewrite (current_rms_scaled _ _ Hk), Hfactor. field. lra. }
  split; [exact Hrms|].
  unfold volume_normalized at 1. rewrite Hrms.
  destruct (Rlt_dec 0 (7 / 10)) as [_|Hn]; [|lra].
  replace (scaling_factor (7 / 10)) with 1; [apply array_map_unit|].
  unfold scaling_factor, target_rms. symmetry.
  replace (7 / 10 / (7 / 10)) with 1 by (field; lra). apply Rmin_left. lra.
Qed.

Lemma volume_normalized_twice_witness :
  current_rms (volume_normalized (Arr1 [1])) = 7 / 10
  /\ volume_normalized (volume_normalized (Arr1 [1])) = volume_normalized (Arr1 [1]).
Proof.
  apply volume_normalized_twice. rewrite current_rms_single; lra.
Defined.

End SecondNormalisation.

Lemma validate_audio_format_bounds_inclusive_witness :
  fst (validate_audio_format (world_with_file 30) "voices/sample.wav" []) = Ok true
  /\ fst (validate_audio_format (world_with_file 300) "voices/sample.wav" []) = Ok true.
Proof.
  split.
  - apply (validate_audio_format_bounds_inclusive (world_with_file 30)
             "voices/sample.wav"%string 30 16000 []); try reflexivity. left. reflexivity.
  - apply (validate_audio_format_bounds_inclusive (world_with_file 300)
             "voices/sample.wav"%string 300 16000 []); try reflexivity. right. reflexivity.
Defined.

Lemma double_failure_raises_network_error_witness :
  fst (dispatch (studio_world false false) (py "hello") default_voice "out/a.wav" 22050
         (studio_runtime false false))
  = Raised (ExternalError "gtts" "connection failed").
Proof.
  assert (Hne : engine default_voice <> "gtts"%string) by discriminate.
  erewrite (double_failure_raises_network_error (studio_world false false) (py "hello")
              default_voice "out/a.wav"%string 22050 (studio_runtime false false)
              _ _ _ _ Hne); [reflexivity|vm_compute; reflexivity|vm_compute; reflexivity].
Defined.

Lemma makedirs_failure_propagates_witness :
  fst (synthesize_text
         (with_os_makedirs
            (fun _ _ => Raised (ExternalError "os" "No such file or directory"))
            (studio_world true true))
         (py "hello") None (Some "a.wav"%string) 22050 (studio_runtime true true))
  = Raised (ExternalError "os" "No such file or directory").
Proof.
  erewrite makedirs_failure_propagates;
    [reflexivity|discriminate|discriminate|vm_compute; reflexivity|reflexivity].
Defined.
